(** * GHCR clean-up tool: a shallow embedding of [build/scripts/ghcr.py]

    The development follows the Python module function by function:
    the retention engine [find_versions_to_clean], the executor
    [remove_version], the lister [list_versions], the driver
    [cleanup_versions_command] and the token provider
    [GitHubTokenProvider].  Python's standard library ([re],
    [datetime.fromisoformat]) is an interface the embedding is
    parametric in; exceptions are an error type, the clock, the log and
    the HTTP traffic are an explicit world threaded through a small
    state-and-error monad. *)

From Stdlib Require Import ZArith List String Ascii Bool Lia DecimalString Permutation.
Import ListNotations.
Open Scope string_scope.
Open Scope list_scope.
Open Scope Z_scope.

(** ** Exceptions *)

(** The exceptions the module can let escape.  [OutOfFuel] is not a
    Python exception: it marks a pagination loop that was cut by the
    model's fuel. *)
Inductive exn : Type :=
| ReError              (* re.error, from re.compile *)
| ValueError           (* datetime.fromisoformat on a malformed string *)
| TypeError            (* offset-naive against offset-aware datetimes *)
| OverflowError        (* timedelta or datetime out of range *)
| SystemExit (code : Z)
| AuthenticationError
| HTTPError (status : Z)
| OutOfFuel.

Definition result (A : Type) : Type := (exn + A)%type.

Definition rbind {A B} (r : result A) (k : A -> result B) : result B :=
  match r with
  | inl e => inl e
  | inr a => k a
  end.

Declare Scope py_scope.
Delimit Scope py_scope with py.
Notation "x <-? r ;; k" := (rbind r (fun x => k))
  (at level 61, r at next level, right associativity) : py_scope.
Open Scope py_scope.

(** ** [datetime] and [timedelta] *)

(** A [timedelta] is a number of microseconds.  A [datetime] is a point
    on the microsecond line counted from 1970-01-01T00:00:00: the UTC
    instant when it is offset-aware, the wall-clock reading when it is
    offset-naive. *)
Definition timedelta : Type := Z.

Record datetime : Type := mkDatetime { us : Z; aware : bool }.

Definition MICROS : Z := 1000000.
Definition DAY_SECONDS : Z := 86400.
Definition MAX_DELTA_DAYS : Z := 999999999.
(** [datetime.min] and [datetime.max] (UTC), in microseconds. *)
Definition DATETIME_MIN_US : Z := -62135596800000000.
Definition DATETIME_MAX_US : Z := 253402300799999999.

(** [timedelta(seconds=n)]: the day count of the normalised value must
    have magnitude at most 999999999. *)
Definition timedelta_seconds (n : Z) : result timedelta :=
  let days := n / DAY_SECONDS in
  if (- MAX_DELTA_DAYS <=? days) && (days <=? MAX_DELTA_DAYS)
  then inr (n * MICROS)
  else inl OverflowError.

(** [d - delta] for a datetime [d]: the result must stay within
    [datetime.min .. datetime.max]. *)
Definition datetime_minus (d : datetime) (delta : timedelta) : result datetime :=
  let r := us d - delta in
  if (DATETIME_MIN_US <=? r) && (r <=? DATETIME_MAX_US)
  then inr (mkDatetime r (aware d))
  else inl OverflowError.

(** [a > b] on datetimes. *)
Definition datetime_gt (a b : datetime) : result bool :=
  if Bool.eqb (aware a) (aware b) then inr (us b <? us a) else inl TypeError.

(** [a - b] on datetimes. *)
Definition datetime_diff (a b : datetime) : result timedelta :=
  if Bool.eqb (aware a) (aware b) then inr (us a - us b) else inl TypeError.

(** ** String helpers *)

(** [s.replace(c, by)] for a one-character [c]. *)
Fixpoint str_replace (c : ascii) (by_ : string) (s : string) : string :=
  match s with
  | EmptyString => EmptyString
  | String x s' =>
      if Ascii.eqb x c then (by_ ++ str_replace c by_ s')%string
      else String x (str_replace c by_ s')
  end.

(** [str(n)] for an int. *)
Definition str_int (n : Z) : string := NilZero.string_of_int (Z.to_int n).

(** ["%02d" % n]. *)
Definition str_int02 (n : Z) : string :=
  if (0 <=? n) && (n <? 10) then ("0" ++ str_int n)%string else str_int n.

(** ["%06d" % n], for [0 <= n]. *)
Definition str_int06 (n : Z) : string :=
  let s := str_int n in
  let pad := (6 - String.length s)%nat in
  (fix zeros (k : nat) : string :=
     match k with O => s | S k' => String "0" (zeros k') end) pad.

(** [str(delta)] for a timedelta, after [timedelta.__str__]. *)
Definition timedelta_str (delta : timedelta) : string :=
  let days := delta / (DAY_SECONDS * MICROS) in
  let seconds := (delta mod (DAY_SECONDS * MICROS)) / MICROS in
  let microseconds := delta mod MICROS in
  let mm := seconds / 60 in
  let ss := seconds mod 60 in
  let hh := mm / 60 in
  let mm := mm mod 60 in
  let s := (str_int hh ++ ":" ++ str_int02 mm ++ ":" ++ str_int02 ss)%string in
  let plural := if Z.abs days =? 1 then "" else "s" in
  let s := if days =? 0 then s
           else (str_int days ++ " day" ++ plural ++ ", " ++ s)%string in
  if microseconds =? 0 then s else (s ++ "." ++ str_int06 microseconds)%string.

(** ** The part of Python's library taken as an interface *)

(** [re.compile] answers [None] where Python raises [re.error];
    [fromisoformat] answers [None] where Python raises [ValueError]. *)
Class PyRuntime : Type := {
  Pattern : Type;
  re_compile : string -> option Pattern;
  re_search : Pattern -> string -> bool;
  fromisoformat : string -> option datetime
}.

(** ** Data model *)

Record ContainerMetadata : Type := { tags : list string }.

(** The code tests ['container' in version['metadata']], so the key may
    be absent. *)
Record VersionMetadata : Type := { container : option ContainerMetadata }.

Record PackageVersion : Type := {
  id : Z;
  name : option string;
  url : string;
  package_html_url : string;
  created_at : string;
  updated_at : string;
  html_url : string;
  metadata : VersionMetadata
}.

Inductive Action : Type := keep | delete.

Record CleanupAction : Type := mkCleanupAction {
  version : PackageVersion;
  action : Action;
  reason : string
}.

Definition Action_eqb (a b : Action) : bool :=
  match a, b with
  | keep, keep | delete, delete => true
  | _, _ => false
  end.

(** ** The world and the monad *)

Record Request : Type := { method : string; req_url : string; req_headers : list (string * string) }.

(** A response as the module uses it: [raise_for_status] reads the
    status, [json()] the decoded body, [headers['Link']] the Link
    header. *)
Record Response : Type := {
  status_code : Z;
  json : list PackageVersion;
  link_header : option string
}.

Record World : Type := mkWorld {
  clock : Z;                             (* datetime.now(timezone.utc), microseconds *)
  logged : list string;                  (* records handed to logging *)
  sent : list Request;                   (* HTTP requests issued so far *)
  token_calls : nat;                     (* tokens handed out so far *)
  registry : Request -> Response         (* what the remote side answers *)
}.

Definition M (A : Type) : Type := World -> result A * World.

Definition ret {A} (a : A) : M A := fun w => (inr a, w).

Definition bind {A B} (m : M A) (k : A -> M B) : M B :=
  fun w =>
    match m w with
    | (inl e, w') => (inl e, w')
    | (inr a, w') => k a w'
    end.

Definition raise {A} (e : exn) : M A := fun w => (inl e, w).

Definition lift {A} (r : result A) : M A := fun w => (r, w).

Notation "x <- m ;; k" := (bind m (fun x => k))
  (at level 61, m at next level, right associativity) : py_scope.
Notation "m ;;; k" := (bind m (fun _ => k))
  (at level 61, right associativity) : py_scope.

(** [datetime.now(timezone.utc)] *)
Definition datetime_now : M datetime :=
  fun w => (inr (mkDatetime (clock w) true), w).

(** [logging.info(msg)] and [logging.error(msg)] *)
Definition logging_info (msg : string) : M unit :=
  fun w => (inr tt, mkWorld (clock w) (logged w ++ [("INFO: " ++ msg)%string]) (sent w) (token_calls w)
                     (registry w)).

Definition logging_error (msg : string) : M unit :=
  fun w => (inr tt, mkWorld (clock w) (logged w ++ [("ERROR: " ++ msg)%string]) (sent w) (token_calls w)
                     (registry w)).

(** ** A Python [dict] with integer keys

    Iteration follows insertion order; assigning to a key that is
    already present replaces the value and keeps the key's position. *)
Definition dict (V : Type) : Type := list (Z * V).

Fixpoint dict_set {V} (d : dict V) (k : Z) (v : V) : dict V :=
  match d with
  | [] => [(k, v)]
  | (k', v') :: d' =>
      if k' =? k then (k, v) :: d' else (k', v') :: dict_set d' k v
  end.

(** ** [find_versions_to_clean] *)

Section Engine.
Context {rt : PyRuntime}.

(** [version.get('metadata', {}).get('container', {}).get('tags', [])] *)
Definition get_tags (v : PackageVersion) : list string :=
  match container (metadata v) with
  | Some c => tags c
  | None => []
  end.

(** [re.compile(r"^git-commit-").match(tag)]: the tag starts with the
    literal text. *)
Definition git_commit_regex_match (tag : string) : bool :=
  String.prefix "git-commit-" tag.

Definition timestamp_tolerance_seconds : Z := 10.

(** The value of [has_real_tags] when the partition loop tests it. *)
Definition has_real_tags (v : PackageVersion) : bool :=
  let tags := get_tags v in
  let has_real_tags := (0 <? List.length tags)%nat in
  if has_real_tags && (List.length tags =? 1)%nat
     && match tags with t0 :: _ => git_commit_regex_match t0 | [] => false end
  then false
  else has_real_tags.

(** The partition loop, with its two accumulators. *)
Fixpoint separate (versions tagged_versions potential_orphan_versions : list PackageVersion)
  : list PackageVersion * list PackageVersion :=
  match versions with
  | [] => (tagged_versions, potential_orphan_versions)
  | v :: rest =>
      if has_real_tags v
      then separate rest (tagged_versions ++ [v]) potential_orphan_versions
      else separate rest tagged_versions (potential_orphan_versions ++ [v])
  end.

(** [datetime.fromisoformat(version['created_at'].replace('Z', '+00:00'))] *)
Definition parse_created_at (v : PackageVersion) : result datetime :=
  match fromisoformat (str_replace "Z" "+00:00" (created_at v)) with
  | Some d => inr d
  | None => inl ValueError
  end.

Definition reason_remove_all : string :=
  "Marked for deletion by --all=yes-remove-all flag".
Definition reason_older (tagged_max_age_delta : timedelta) : string :=
  ("Tagged version older than '" ++ timedelta_str tagged_max_age_delta ++ "'")%string.
Definition reason_newer (tagged_max_age_delta : timedelta) : string :=
  ("Tagged version newer than '" ++ timedelta_str tagged_max_age_delta ++ "'")%string.
Definition reason_pattern (keep_tags_pattern : string) : string :=
  ("Tagged version matches keep pattern '" ++ keep_tags_pattern ++ "'")%string.
Definition reason_orphan : string := "Orphan version".
Definition reason_correlated (kept_id : Z) : string :=
  ("Untagged version matches timestamp of kept version " ++ str_int kept_id)%string.

(** The inner loop over the tags: [pattern.search(tag)] until one
    matches. *)
Definition should_keep_due_to_pattern (pattern : Pattern) (v : PackageVersion) : bool :=
  existsb (re_search pattern) (get_tags v).

(** One iteration of the loop over the tagged versions: the created
    date, the action and the reason. *)
Definition classify_tagged (cutoff_date : datetime) (tagged_max_age_delta : timedelta)
    (pattern : Pattern) (keep_tags_pattern : string) (v : PackageVersion)
  : result (datetime * Action * string) :=
  created_date <-? parse_created_at v ;;
  if should_keep_due_to_pattern pattern v
  then inr (created_date, keep, reason_pattern keep_tags_pattern)
  else
    newer <-? datetime_gt created_date cutoff_date ;;
    if newer
    then inr (created_date, keep, reason_newer tagged_max_age_delta)
    else inr (created_date, delete, reason_older tagged_max_age_delta).

(** The loop over the tagged versions, threading the kept table and
    the action list. *)
Fixpoint process_tagged (cutoff_date : datetime) (tagged_max_age_delta : timedelta)
    (pattern : Pattern) (keep_tags_pattern : string)
    (tagged_versions : list PackageVersion)
    (kept_tagged_versions_info : dict datetime) (cleanup_actions : list CleanupAction)
  : result (dict datetime * list CleanupAction) :=
  match tagged_versions with
  | [] => inr (kept_tagged_versions_info, cleanup_actions)
  | v :: rest =>
      r <-? classify_tagged cutoff_date tagged_max_age_delta pattern keep_tags_pattern v ;;
      let '(created_date, action, reason) := r in
      let kept_tagged_versions_info :=
        match action with
        | keep => dict_set kept_tagged_versions_info (id v) created_date
        | delete => kept_tagged_versions_info
        end in
      process_tagged cutoff_date tagged_max_age_delta pattern keep_tags_pattern rest
        kept_tagged_versions_info
        (cleanup_actions ++ [mkCleanupAction v action reason])
  end.

(** The loop over [kept_tagged_versions_info.items()]: the id of the
    first entry within the tolerance, if any. *)
Fixpoint find_kept_match (orphan_created_date : datetime) (time_tolerance : timedelta)
    (items : dict datetime) : result (option Z) :=
  match items with
  | [] => inr None
  | (kept_id, kept_timestamp) :: rest =>
      d <-? datetime_diff orphan_created_date kept_timestamp ;;
      if Z.abs d <=? time_tolerance then inr (Some kept_id)
      else find_kept_match orphan_created_date time_tolerance rest
  end.

(** One iteration of the loop over the potential orphans. *)
Definition classify_orphan (kept_tagged_versions_info : dict datetime) (v : PackageVersion)
  : result CleanupAction :=
  orphan_created_date <-? parse_created_at v ;;
  time_tolerance <-? timedelta_seconds timestamp_tolerance_seconds ;;
  m <-? find_kept_match orphan_created_date time_tolerance kept_tagged_versions_info ;;
  match m with
  | Some kept_id => inr (mkCleanupAction v keep (reason_correlated kept_id))
  | None => inr (mkCleanupAction v delete reason_orphan)
  end.

Fixpoint process_orphans (kept_tagged_versions_info : dict datetime)
    (potential_orphan_versions : list PackageVersion) (cleanup_actions : list CleanupAction)
  : result (list CleanupAction) :=
  match potential_orphan_versions with
  | [] => inr cleanup_actions
  | v :: rest =>
      a <-? classify_orphan kept_tagged_versions_info v ;;
      process_orphans kept_tagged_versions_info rest (cleanup_actions ++ [a])
  end.

Definition find_versions_to_clean (versions : list PackageVersion) (tagged_max_age : Z)
    (keep_tags_pattern : string) (remove_all : bool) : M (list CleanupAction) :=
  if remove_all then
    ret (fold_left
           (fun cleanup_actions v =>
              cleanup_actions ++ [mkCleanupAction v delete reason_remove_all])
           versions [])
  else
    let '(tagged_versions, potential_orphan_versions) := separate versions [] [] in
    now <- datetime_now ;;
    tagged_max_age_delta <- lift (timedelta_seconds tagged_max_age) ;;
    cutoff_date <- lift (datetime_minus now tagged_max_age_delta) ;;
    pattern <- lift (match re_compile keep_tags_pattern with
                     | Some p => inr p
                     | None => inl ReError
                     end) ;;
    r <- lift (process_tagged cutoff_date tagged_max_age_delta pattern keep_tags_pattern
                 tagged_versions [] []) ;;
    let '(kept_tagged_versions_info, cleanup_actions) := r in
    lift (process_orphans kept_tagged_versions_info potential_orphan_versions
            cleanup_actions).

End Engine.

(** ** The collaborators that are passed in *)

(** [token_provider] and [requests_module] are arguments of
    [list_versions] and [remove_version]; each is a record of the
    methods the module calls on it.  How [GitHubTokenProvider] finds a
    token (environment, [gh] command line, cache) is modelled on its
    own further down; the statements about the lister, the executor
    and the driver hold for any provider. *)
Record TokenProvider : Type := { get_token : M string }.

Record RequestsModule : Type := {
  requests_get : string -> list (string * string) -> M Response;
  requests_delete : string -> list (string * string) -> M Response
}.

(** [response.raise_for_status()]: an [HTTPError] for a 4xx or 5xx
    status. *)
Definition raise_for_status (response : Response) : M unit :=
  if (400 <=? status_code response) && (status_code response <? 600)
  then raise (HTTPError (status_code response))
  else ret tt.

Definition api_headers (token : string) : list (string * string) :=
  [ ("Accept", "application/vnd.github+json");
    ("Authorization", ("Bearer " ++ token)%string);
    ("X-GitHub-Api-Version", "2022-11-28") ].

(** ** [remove_version] *)

Definition remove_version (namespace package_name : string) (version_id : Z)
    (dry_run : bool) (token_provider : TokenProvider) (requests_module : RequestsModule)
  : M bool :=
  if dry_run then
    logging_info ("[DRY RUN] Would remove version " ++ str_int version_id ++ " of "
                  ++ namespace ++ "/" ++ package_name)%string ;;;
    ret true
  else
    token <- get_token token_provider ;;
    let api_url := ("https://api.github.com/" ++ namespace ++ "/packages/container/"
                    ++ package_name ++ "/versions/" ++ str_int version_id)%string in
    let headers := api_headers token in
    response <- requests_delete requests_module api_url headers ;;
    raise_for_status response ;;;
    logging_info ("Removed version " ++ str_int version_id ++ " of "
                  ++ namespace ++ "/" ++ package_name)%string ;;;
    ret true.

(** ** [list_versions] *)

(** [s.split(sep)] for a one-character separator. *)
Fixpoint str_split (sep : ascii) (s : string) : list string :=
  match s with
  | EmptyString => [EmptyString]
  | String c s' =>
      if Ascii.eqb c sep then EmptyString :: str_split sep s'
      else match str_split sep s' with
           | [] => [String c EmptyString]
           | x :: xs => String c x :: xs
           end
  end.

(** [needle in s] *)
Fixpoint str_contains (needle s : string) : bool :=
  String.prefix needle s ||
  match s with
  | EmptyString => false
  | String _ s' => str_contains needle s'
  end.

(** The text before the first ['>'] of [s], if there is one. *)
Fixpoint before_gt (s : string) : option string :=
  match s with
  | EmptyString => None
  | String c s' =>
      if Ascii.eqb c ">" then Some EmptyString
      else match before_gt s' with
           | Some g => Some (String c g)
           | None => None
           end
  end.

(** [re.search(r'<([^>]+)>', link)], returning [match.group(1)]: the
    leftmost ['<'] that is followed by at least one character other
    than ['>'] and then a ['>']. *)
Fixpoint search_angle (link : string) : option string :=
  match link with
  | EmptyString => None
  | String c s' =>
      if Ascii.eqb c "<" then
        match before_gt s' with
        | Some (String g gs) => Some (String g gs)
        | _ => search_angle s'
        end
      else search_angle s'
  end.

Definition rel_next : string :=
  ("rel=" ++ String (ascii_of_nat 34) ("next" ++ String (ascii_of_nat 34) ""))%string.

(** The body run when the response has a Link header. *)
Definition next_page_of (link_header : string) : option string :=
  fold_left
    (fun next_page link =>
       if str_contains rel_next link then
         match search_angle link with
         | Some u => Some u
         | None => next_page
         end
       else next_page)
    (str_split "," link_header) None.

(** The [while next_page:] loop. *)
Fixpoint fetch_pages (fuel : nat) (requests_module : RequestsModule)
    (headers : list (string * string)) (next_page : option string)
    (all_versions : list PackageVersion) : M (list PackageVersion) :=
  match next_page with
  | None => ret all_versions
  | Some page_url =>
      match fuel with
      | O => raise OutOfFuel
      | S fuel' =>
          logging_info ("Fetching versions from: " ++ page_url)%string ;;;
          response <- requests_get requests_module page_url headers ;;
          raise_for_status response ;;;
          let all_versions := all_versions ++ json response in
          let next_page :=
            match link_header response with
            | Some l => next_page_of l
            | None => None
            end in
          fetch_pages fuel' requests_module headers next_page all_versions
      end
  end.

Definition list_versions (fuel : nat) (namespace package_name : string)
    (token_provider : TokenProvider) (requests_module : RequestsModule)
  : M (list PackageVersion) :=
  token <- get_token token_provider ;;
  let api_url := ("https://api.github.com/" ++ namespace ++ "/packages/container/"
                  ++ package_name ++ "/versions?per_page=100")%string in
  let headers := api_headers token in
  fetch_pages fuel requests_module headers (Some api_url) [].

(** ** [cleanup_versions_command] *)

Record CleanupArgs : Type := {
  namespace : string;
  package : string;
  tagged_max_age : Z;
  really_remove : bool;
  keep_tags_pattern : string;
  all : option string
}.

Fixpoint for_each {A} (l : list A) (body : A -> M unit) : M unit :=
  match l with
  | [] => ret tt
  | x :: rest => body x ;;; for_each rest body
  end.

(** [', '.join(l)] *)
Fixpoint str_join (sep : string) (l : list string) : string :=
  match l with
  | [] => EmptyString
  | [x] => x
  | x :: rest => (x ++ sep ++ str_join sep rest)%string
  end.

Definition str_bool (b : bool) : string := if b then "True" else "False".
Definition str_action (a : Action) : string :=
  match a with keep => "keep" | delete => "delete" end.
Definition str_len {A} (l : list A) : string := str_int (Z.of_nat (List.length l)).

Section Driver.
Context {rt : PyRuntime}.

Definition cleanup_versions_command (args : CleanupArgs)
    (list_versions_func : string -> string -> M (list PackageVersion))
    (find_versions_func : list PackageVersion -> Z -> string -> bool -> M (list CleanupAction))
    (remove_version_func : string -> string -> Z -> bool -> M bool) : M unit :=
  let should_remove_all :=
    match all args with
    | Some s => String.eqb s "yes-remove-all"
    | None => false
    end in
  (match all args with
   | Some _ =>
       if negb should_remove_all then
         logging_error "Invalid value for --all flag. Must be '--all=yes-remove-all'." ;;;
         raise (SystemExit 1)
       else ret tt
   | None => ret tt
   end) ;;;
  all_versions <- list_versions_func (namespace args) (package args) ;;
  cleanup_actions <- find_versions_func all_versions (tagged_max_age args)
                       (keep_tags_pattern args) should_remove_all ;;
  logging_info ("Found " ++ str_len cleanup_actions ++ " versions from "
                ++ namespace args ++ "/" ++ package args ++ ":")%string ;;;
  for_each cleanup_actions
    (fun a =>
       let v := version a in
       let name_display :=
         match name v with
         | Some (String c s) => String c s
         | _ => "N/A"
         end in
       let tags := get_tags v in
       logging_info ("  - ID: " ++ str_int (id v) ++ ", Name: " ++ name_display
                     ++ ", Tags: " ++ str_join ", " tags)%string ;;;
       logging_info ("    Created: " ++ created_at v)%string ;;;
       logging_info ("    Action: " ++ str_action (action a))%string ;;;
       logging_info ("    Reason: " ++ reason a)%string) ;;;
  let to_remove :=
    map version (filter (fun a => Action_eqb (action a) delete) cleanup_actions) in
  match to_remove with
  | [] =>
      logging_info ("No versions to remove from " ++ namespace args ++ "/"
                    ++ package args ++ ".")%string
  | _ :: _ =>
      logging_info ("Removing " ++ str_len to_remove ++ " (really_remove: "
                    ++ str_bool (really_remove args) ++ ") versions from "
                    ++ namespace args ++ "/" ++ package args ++ ":")%string ;;;
      for_each to_remove
        (fun v =>
           _ <- remove_version_func (namespace args) (package args) (id v)
                  (negb (really_remove args)) ;;
           ret tt) ;;;
      logging_info ("Successfully removed " ++ str_len to_remove ++ " versions.")%string
  end.

End Driver.

(** ** Stand-ins for the injected collaborators

    [world_requests] is a requests module living in the world: it
    records every request in [sent] and answers with what [registry]
    holds for it.  [static_token] is a provider that always has a
    token and counts the calls in [token_calls]. *)
Definition http (meth : string) (target : string) (headers : list (string * string))
  : M Response :=
  fun w =>
    let rq := {| method := meth; req_url := target; req_headers := headers |} in
    (inr (registry w rq),
     mkWorld (clock w) (logged w) (sent w ++ [rq]) (token_calls w) (registry w)).

Definition world_requests : RequestsModule :=
  {| requests_get := http "GET"; requests_delete := http "DELETE" |}.

Definition static_token (token : string) : TokenProvider :=
  {| get_token := fun w =>
       (inr token,
        mkWorld (clock w) (logged w) (sent w) (S (token_calls w)) (registry w)) |}.

(** ** A sample runtime

    A small stand-in for the two library functions, enough to run the
    module on concrete data.  Patterns: a literal text, optionally
    anchored by a leading [^]; any other use of a metacharacter is
    refused, as Python refuses the unbalanced ["("].  Timestamps: the
    layout [YYYY-MM-DDTHH:MM:SS], offset-naive when nothing follows and
    offset-aware when [+00:00] follows.  The theorems below hold for
    every runtime and never look inside this one. *)
Module Sample.

Definition is_meta (c : ascii) : bool :=
  existsb (Ascii.eqb c)
    ["."%char; "^"%char; "$"%char; "*"%char; "+"%char; "?"%char; "{"%char; "}"%char;
     "["%char; "]"%char; "\"%char; "|"%char; "("%char; ")"%char].

Fixpoint has_meta (s : string) : bool :=
  match s with
  | EmptyString => false
  | String c s' => is_meta c || has_meta s'
  end.

Definition compile (p : string) : option (bool * string) :=
  match p with
  | String "^" lit => if has_meta lit then None else Some (true, lit)
  | _ => if has_meta p then None else Some (false, p)
  end.

Definition search (p : bool * string) (s : string) : bool :=
  let '(anchored, lit) := p in
  if anchored then String.prefix lit s else str_contains lit s.

Definition digit (c : ascii) : option Z :=
  let n := Z.of_nat (nat_of_ascii c) in
  if (48 <=? n) && (n <=? 57) then Some (n - 48) else None.

(** Read exactly [n] decimal digits. *)
Fixpoint number (n : nat) (acc : Z) (s : string) : option (Z * string) :=
  match n with
  | O => Some (acc, s)
  | S n' =>
      match s with
      | EmptyString => None
      | String c s' =>
          match digit c with
          | Some d => number n' (acc * 10 + d) s'
          | None => None
          end
      end
  end.

Definition expect (c : ascii) (s : string) : option string :=
  match s with
  | String x s' => if Ascii.eqb x c then Some s' else None
  | EmptyString => None
  end.

Definition is_leap (y : Z) : bool :=
  ((y mod 4 =? 0) && negb (y mod 100 =? 0)) || (y mod 400 =? 0).

Definition days_in_month (y m : Z) : Z :=
  if m =? 2 then (if is_leap y then 29 else 28)
  else if (m =? 4) || (m =? 6) || (m =? 9) || (m =? 11) then 30
  else 31.

(** Days from 1970-01-01 to the civil date [y]-[m]-[d]. *)
Definition days_from_civil (y m d : Z) : Z :=
  let y := if m <=? 2 then y - 1 else y in
  let era := y / 400 in
  let yoe := y - era * 400 in
  let mp := if 2 <? m then m - 3 else m + 9 in
  let doy := (153 * mp + 2) / 5 + d - 1 in
  let doe := yoe * 365 + yoe / 4 - yoe / 100 + doy in
  era * 146097 + doe - 719468.

Definition obind {A B} (o : option A) (k : A -> option B) : option B :=
  match o with
  | Some a => k a
  | None => None
  end.

Definition parse_iso (s : string) : option datetime :=
  obind (number 4 0 s) (fun '(y, s) =>
  obind (expect "-" s) (fun s =>
  obind (number 2 0 s) (fun '(mo, s) =>
  obind (expect "-" s) (fun s =>
  obind (number 2 0 s) (fun '(d, s) =>
  obind (expect "T" s) (fun s =>
  obind (number 2 0 s) (fun '(h, s) =>
  obind (expect ":" s) (fun s =>
  obind (number 2 0 s) (fun '(mi, s) =>
  obind (expect ":" s) (fun s =>
  obind (number 2 0 s) (fun '(sec, s) =>
  if (1 <=? y) && (1 <=? mo) && (mo <=? 12) && (1 <=? d) && (d <=? days_in_month y mo)
     && (h <? 24) && (mi <? 60) && (sec <? 60)
  then
    let t := ((days_from_civil y mo d * DAY_SECONDS) + h * 3600 + mi * 60 + sec) * MICROS in
    if String.eqb s "" then Some (mkDatetime t false)
    else if String.eqb s "+00:00" then Some (mkDatetime t true)
    else None
  else None))))))))))).

#[global] Instance runtime : PyRuntime := {|
  Pattern := bool * string;
  re_compile := compile;
  re_search := search;
  fromisoformat := parse_iso
|}.

(** A version with the given id, creation time and tags. *)
Definition mk (i : Z) (created : string) (tgs : list string) : PackageVersion :=
  {| id := i; name := Some "image"; url := ""; package_html_url := "";
     created_at := created; updated_at := created; html_url := "";
     metadata := {| container := Some {| tags := tgs |} |} |}.

Definition silent (_ : Request) : Response :=
  {| status_code := 200; json := []; link_header := None |}.

(** A world whose clock reads 2024-06-10T12:00:00 UTC. *)
Definition world0 : World :=
  {| clock := 1718020800 * MICROS; logged := []; sent := []; token_calls := 0;
     registry := silent |}.

(** The versions of the correlation scenario, one day before the
    clock of [world0], and an old version with an archive tag. *)
Definition manifest_list : PackageVersion :=
  mk 1001 "2024-06-09T12:00:00Z" ["latest"; "git-commit-abcd"].
Definition orphan_amd64 : PackageVersion := mk 2001 "2024-06-09T12:00:03Z" [].
Definition orphan_arm64 : PackageVersion := mk 2002 "2024-06-09T12:00:07Z" [].
Definition unrelated_orphan : PackageVersion := mk 3001 "2024-06-08T12:00:00Z" [].
Definition git_commit_orphan : PackageVersion :=
  mk 3002 "2024-06-07T12:00:00Z" ["git-commit-1234"].
Definition archived : PackageVersion :=
  mk 1002 "2024-01-01T00:00:00Z" ["archive-1"; "other"].
Definition stale : PackageVersion := mk 1003 "2024-06-08T12:00:00Z" ["v1.0.0"].

Definition versions : list PackageVersion :=
  [manifest_list; orphan_amd64; orphan_arm64; unrelated_orphan; git_commit_orphan;
   archived; stale].

(** The same tagged versions with a single orphan left. *)
Definition versions_fewer : list PackageVersion :=
  [manifest_list; archived; orphan_arm64; stale].

(** Two days, the pattern [^archive-], and what they come to at the
    clock of [world0]. *)
Definition two_days : Z := 172800.
Definition archive_pattern : string := "^archive-".
Definition delta0 : timedelta := 172800000000.
Definition cutoff0 : datetime := mkDatetime 1717848000000000 true.
Definition pattern0 : Pattern := (true, "archive-").

(** A registry that answers every listing request with one page
    holding [versions], and a world that talks to it. *)
Definition one_page (rq : Request) : Response :=
  if String.eqb (method rq) "GET"
  then {| status_code := 200; json := versions; link_header := None |}
  else {| status_code := 204; json := []; link_header := None |}.

Definition world1 : World :=
  {| clock := 1718020800 * MICROS; logged := []; sent := []; token_calls := 0;
     registry := one_page |}.

(** The same instant as [world0], with something already logged. *)
Definition world0_logged : World :=
  {| clock := 1718020800 * MICROS; logged := ["INFO: earlier"]; sent := [];
     token_calls := 0; registry := silent |}.

(** A command line whose keep pattern does not compile. *)
Definition bad_args : CleanupArgs :=
  {| namespace := "user/test"; package := "test-package"; tagged_max_age := 604800;
     really_remove := false; keep_tags_pattern := "("; all := None |}.

(** What a run of the engine decided: id, action and reason. *)
Definition summary (r : result (list CleanupAction) * World)
  : list (Z * Action * string) :=
  match fst r with
  | inr acts => map (fun a => (id (version a), action a, reason a)) acts
  | inl _ => []
  end.

Definition lister (ns pkg : string) : M (list PackageVersion) :=
  list_versions 10 ns pkg (static_token "test-token") world_requests.

Definition remover (ns pkg : string) (version_id : Z) (dry_run : bool) : M bool :=
  remove_version ns pkg version_id dry_run (static_token "test-token") world_requests.

End Sample.

(** ** Vocabulary of the statements *)

Section Vocabulary.
Context {rt : PyRuntime}.

(** The two groups the partition loop builds. *)
Definition tagged_group (versions : list PackageVersion) : list PackageVersion :=
  fst (separate versions [] []).

Definition orphan_group (versions : list PackageVersion) : list PackageVersion :=
  snd (separate versions [] []).

(** Every [created_at] parses to an offset-aware (UTC) timestamp. *)
Definition utc_timestamps (versions : list PackageVersion) : Prop :=
  Forall (fun v => exists d, parse_created_at v = inr d /\ aware d = true) versions.

(** The policy parameters are usable at the instant the world's clock
    shows: the age is a representable [timedelta], the cutoff a
    representable [datetime], the pattern compiles. *)
Definition policy_ok (w : World) (tagged_max_age : Z) (keep_tags_pattern : string)
    (delta : timedelta) (cutoff : datetime) (p : Pattern) : Prop :=
  timedelta_seconds tagged_max_age = inr delta /\
  datetime_minus (mkDatetime (clock w) true) delta = inr cutoff /\
  re_compile keep_tags_pattern = Some p.

(** The creation times of the two versions are at most ten seconds
    apart. *)
Definition within_tolerance (o k : PackageVersion) : bool :=
  match parse_created_at o, parse_created_at k with
  | inr d1, inr d2 => Z.abs (us d1 - us d2) <=? timestamp_tolerance_seconds * MICROS
  | _, _ => false
  end.

(** An action on a version of the tagged group that says keep. *)
Definition is_kept_tagged (b : CleanupAction) : bool :=
  has_real_tags (version b) && Action_eqb (action b) keep.

(** A version whose only tag starts with [git-commit-]. *)
Definition sole_git_commit_tag (v : PackageVersion) : Prop :=
  exists t, get_tags v = [t] /\ git_commit_regex_match t = true.

(** *** Closed forms, used in the proofs

    What the two loops compute when every timestamp is offset-aware;
    the lemmas [process_tagged_closed] and [process_orphans_closed]
    derive them from the loops. *)
Definition created_of (v : PackageVersion) : datetime :=
  match parse_created_at v with
  | inr d => d
  | inl _ => mkDatetime 0 true
  end.

Definition decide_tagged (cutoff : datetime) (delta : timedelta) (p : Pattern)
    (pat : string) (v : PackageVersion) : CleanupAction :=
  if should_keep_due_to_pattern p v then mkCleanupAction v keep (reason_pattern pat)
  else if us cutoff <? us (created_of v) then mkCleanupAction v keep (reason_newer delta)
  else mkCleanupAction v delete (reason_older delta).

Definition record_kept (kept : dict datetime) (a : CleanupAction) : dict datetime :=
  match action a with
  | keep => dict_set kept (id (version a)) (created_of (version a))
  | delete => kept
  end.

Definition near (d : datetime) (e : Z * datetime) : bool :=
  Z.abs (us d - us (snd e)) <=? timestamp_tolerance_seconds * MICROS.

Definition decide_orphan (kept : dict datetime) (v : PackageVersion) : CleanupAction :=
  match find (near (created_of v)) kept with
  | Some (kept_id, _) => mkCleanupAction v keep (reason_correlated kept_id)
  | None => mkCleanupAction v delete reason_orphan
  end.

Definition kept_entry (a : CleanupAction) : Z * datetime :=
  (id (version a), created_of (version a)).

Definition says_keep (a : CleanupAction) : bool := Action_eqb (action a) keep.

(** The whole engine on well-formed input. *)
Definition engine_closed (cutoff : datetime) (delta : timedelta) (p : Pattern)
    (pat : string) (versions : list PackageVersion) : list CleanupAction :=
  let tagged_actions := map (decide_tagged cutoff delta p pat) (tagged_group versions) in
  tagged_actions ++
  map (decide_orphan (fold_left record_kept tagged_actions [])) (orphan_group versions).

End Vocabulary.

(** ** [GitHubTokenProvider]

    The provider is an object with one field of its own, the cached
    [_token]; the environment and the [gh] command line lie outside
    it and may change between calls, so they are passed to each call.
    Strings are read as sequences of code points below 256. *)

(** [c.isspace()] *)
Definition is_space (c : ascii) : bool :=
  let n := nat_of_ascii c in
  (((9 <=? n) && (n <=? 13)) || ((28 <=? n) && (n <=? 32)) || (n =? 133) || (n =? 160))%nat.

Fixpoint str_lstrip (s : string) : string :=
  match s with
  | EmptyString => EmptyString
  | String c s' => if is_space c then str_lstrip s' else s
  end.

Fixpoint str_rstrip (s : string) : string :=
  match s with
  | EmptyString => EmptyString
  | String c s' =>
      match str_rstrip s' with
      | EmptyString => if is_space c then EmptyString else String c EmptyString
      | String x r => String c (String x r)
      end
  end.

(** [s.strip()] *)
Definition str_strip (s : string) : string := str_rstrip (str_lstrip s).

Module GitHubTokenProvider.

(** What [self._subprocess.run(["gh", "auth", "token"], ...)] can do:
    complete with a return code and captured output, raise
    [FileNotFoundError], or raise something else. *)
Inductive RunOutcome : Type :=
| Completed (returncode : Z) (stdout : string)
| FileNotFoundError
| Raised (e : exn).

Record Outside : Type := mkOutside {
  environ : list (string * string);      (* self._environ *)
  gh_auth_token : RunOutcome;            (* what running the command gives *)
  runs : nat                             (* calls of self._subprocess.run so far *)
}.

(** [environ.get(key)] *)
Fixpoint environ_get (env : list (string * string)) (key : string) : option string :=
  match env with
  | [] => None
  | (k, v) :: rest => if String.eqb k key then Some v else environ_get rest key
  end.

(** The test [if x:] on an optional string: present and not empty. *)
Definition truthy (x : option string) : option string :=
  match x with
  | Some (String c s) => Some (String c s)
  | _ => None
  end.

Definition subprocess_run (o : Outside) : RunOutcome * Outside :=
  (gh_auth_token o, mkOutside (environ o) (gh_auth_token o) (S (runs o))).

(** [get_token]: the answer, the new [_token] and the outside. *)
Definition get_token (_token : option string) (o : Outside)
  : result string * option string * Outside :=
  match truthy _token with
  | Some cached => (inr cached, _token, o)
  | None =>
      match truthy (environ_get (environ o) "GITHUB_TOKEN") with
      | Some token => (inr token, Some token, o)
      | None =>
          let '(outcome, o') := subprocess_run o in
          match outcome with
          | Completed returncode stdout =>
              match (if returncode =? 0 then truthy (Some (str_strip stdout)) else None) with
              | Some stripped => (inr stripped, Some stripped, o')
              | None => (inl AuthenticationError, _token, o')
              end
          | FileNotFoundError => (inl AuthenticationError, _token, o')
          | Raised e => (inl e, _token, o')
          end
      end
  end.

(** [clear_token] *)
Definition clear_token (_token : option string) : option string := None.

End GitHubTokenProvider.

(** ** Vocabulary for the lister, the executor and the driver *)

(** The requests the module builds. *)
Definition versions_url (namespace package_name : string) : string :=
  ("https://api.github.com/" ++ namespace ++ "/packages/container/"
   ++ package_name ++ "/versions?per_page=100")%string.

Definition version_url (namespace package_name : string) (version_id : Z) : string :=
  ("https://api.github.com/" ++ namespace ++ "/packages/container/"
   ++ package_name ++ "/versions/" ++ str_int version_id)%string.

Definition get_request (token target : string) : Request :=
  {| method := "GET"; req_url := target; req_headers := api_headers token |}.

Definition delete_request (token namespace package_name : string) (version_id : Z)
  : Request :=
  {| method := "DELETE"; req_url := version_url namespace package_name version_id;
     req_headers := api_headers token |}.

(** A status [raise_for_status] lets pass. *)
Definition passes (r : Response) : bool :=
  negb ((400 <=? status_code r) && (status_code r <? 600)).

(** The next page a response names. *)
Definition next_of (r : Response) : option string :=
  match link_header r with
  | Some l => next_page_of l
  | None => None
  end.

(** Starting at [page], the registry answers with passing pages that
    name, one after the other, the pages of [later], and the last of
    them names [final]. *)
Fixpoint linked (reg : Request -> Response) (token page : string) (later : list string)
    (final : option string) : Prop :=
  passes (reg (get_request token page)) = true /\
  match later with
  | [] => next_of (reg (get_request token page)) = final
  | page' :: later' =>
      next_of (reg (get_request token page)) = Some page' /\
      linked reg token page' later' final
  end.

(** [w'] differs from [w] at most in what was logged. *)
Definition only_logged (w w' : World) : Prop :=
  clock w' = clock w /\ sent w' = sent w /\ token_calls w' = token_calls w /\
  registry w' = registry w.

(** The versions the driver hands to the removal function. *)
Definition to_remove (cleanup_actions : list CleanupAction) : list PackageVersion :=
  map version (filter (fun a => Action_eqb (action a) delete) cleanup_actions).

(** The driver's removal function over a token and the world's
    requests module. *)
Definition world_remover (token : string) (ns pkg : string) (version_id : Z)
    (dry_run : bool) : M bool :=
  remove_version ns pkg version_id dry_run (static_token token) world_requests.

Definition world_lister (fuel : nat) (token : string) (ns pkg : string)
  : M (list PackageVersion) :=
  list_versions fuel ns pkg (static_token token) world_requests.

(** The log records of the lister and the executor. *)
Definition fetch_line (page : string) : string :=
  ("INFO: Fetching versions from: " ++ page)%string.

Definition removed_line (ns pkg : string) (version_id : Z) : string :=
  ("INFO: Removed version " ++ str_int version_id ++ " of " ++ ns ++ "/" ++ pkg)%string.

(** The value of [should_remove_all] in the driver. *)
Definition wants_all (args : CleanupArgs) : bool :=
  match all args with
  | Some s => String.eqb s "yes-remove-all"
  | None => false
  end.

(** The [--all] argument is absent or spelled as required. *)
Definition all_flag_valid (args : CleanupArgs) : Prop :=
  all args = None \/ all args = Some "yes-remove-all".

(** The last part of the driver, from the computation of [to_remove]
    on. *)
Definition removal_phase (args : CleanupArgs)
    (remove_version_func : string -> string -> Z -> bool -> M bool)
    (cleanup_actions : list CleanupAction) : M unit :=
  let to_remove :=
    map version (filter (fun a => Action_eqb (action a) delete) cleanup_actions) in
  match to_remove with
  | [] =>
      logging_info ("No versions to remove from " ++ namespace args ++ "/"
                    ++ package args ++ ".")%string
  | _ :: _ =>
      logging_info ("Removing " ++ str_len to_remove ++ " (really_remove: "
                    ++ str_bool (really_remove args) ++ ") versions from "
                    ++ namespace args ++ "/" ++ package args ++ ":")%string ;;;
      for_each to_remove
        (fun v =>
           _ <- remove_version_func (namespace args) (package args) (id v)
                  (negb (really_remove args)) ;;
           ret tt) ;;;
      logging_info ("Successfully removed " ++ str_len to_remove ++ " versions.")%string
  end.

(** ** Vocabulary for the Link header *)

(** The character [c] does not occur in [s]. *)
Fixpoint lacks (c : ascii) (s : string) : bool :=
  match s with
  | EmptyString => true
  | String x s' => negb (Ascii.eqb x c) && lacks c s'
  end.

(** One link of a Link header that names [target] as the next page,
    as the registry writes it. *)
Definition next_link (target : string) : string :=
  ("<" ++ target ++ ">; " ++ rel_next)%string.

(** The body of the loop over the links of a header. *)
Definition link_step (next_page : option string) (link : string) : option string :=
  if str_contains rel_next link then
    match search_angle link with
    | Some u => Some u
    | None => next_page
    end
  else next_page.

(** ** More sample data *)

Module Cases.

(** What the engine decides on the sample inputs. *)
Definition actions_of (r : result (list CleanupAction) * World) : list CleanupAction :=
  match fst r with
  | inr acts => acts
  | inl _ => []
  end.

Definition sample_actions : list CleanupAction :=
  Eval vm_compute in
    actions_of (find_versions_to_clean Sample.versions Sample.two_days
                  Sample.archive_pattern false Sample.world0).

Definition sample_actions_fewer : list CleanupAction :=
  Eval vm_compute in
    actions_of (find_versions_to_clean Sample.versions_fewer Sample.two_days
                  Sample.archive_pattern false Sample.world0).

Definition manifest_action : CleanupAction :=
  mkCleanupAction Sample.manifest_list keep "Tagged version newer than '2 days, 0:00:00'".

(** An input none of whose tagged versions is kept. *)
Definition all_stale : list PackageVersion :=
  [Sample.stale; Sample.unrelated_orphan; Sample.git_commit_orphan].

Definition all_stale_actions : list CleanupAction :=
  Eval vm_compute in
    actions_of (find_versions_to_clean all_stale Sample.two_days
                  Sample.archive_pattern false Sample.world0).


(** Seven days at the clock of [Sample.world0]. *)
Definition seven_days : Z := 604800.
Definition delta7 : timedelta := 604800000000.
Definition cutoff7 : datetime := mkDatetime 1717416000000000 true.

(** The outside of a token provider: a token in the environment, or
    only the [gh] command line. *)
Definition with_env : GitHubTokenProvider.Outside :=
  {| GitHubTokenProvider.environ := [("GITHUB_TOKEN", "test-token-from-env")];
     GitHubTokenProvider.gh_auth_token := GitHubTokenProvider.FileNotFoundError;
     GitHubTokenProvider.runs := 0 |}.

Definition with_gh : GitHubTokenProvider.Outside :=
  {| GitHubTokenProvider.environ := [];
     GitHubTokenProvider.gh_auth_token :=
       GitHubTokenProvider.Completed 0
         ("test-token-from-gh-cli" ++ String (ascii_of_nat 10) "")%string;
     GitHubTokenProvider.runs := 0 |}.

(** A provider that has no token to give. *)
Definition no_token : TokenProvider := {| get_token := raise AuthenticationError |}.

(** Registries: two pages linked by a Link header; a first page whose
    successor fails; a page that names itself; one that refuses every
    DELETE; one that refuses the DELETE of version 3001. *)
Definition first_page : string := versions_url "user/test" "test-package".
Definition second_page : string :=
  "https://api.github.com/user/test/packages/container/test-package/versions?page=2&per_page=100".
Definition last_link : string :=
  (" <https://api.github.com/user/test/packages/container/test-package/versions?page=199&per_page=100>; rel="
   ++ String (ascii_of_nat 34) ("last" ++ String (ascii_of_nat 34) ""))%string.
Definition link_to_second : string := str_join "," [next_link second_page; last_link].

Definition two_pages (rq : Request) : Response :=
  if String.eqb (req_url rq) first_page
  then {| status_code := 200; json := [Sample.manifest_list; Sample.orphan_amd64];
          link_header := Some link_to_second |}
  else {| status_code := 200; json := [Sample.stale]; link_header := None |}.

Definition second_fails (rq : Request) : Response :=
  if String.eqb (req_url rq) first_page
  then {| status_code := 200; json := [Sample.manifest_list; Sample.orphan_amd64];
          link_header := Some link_to_second |}
  else {| status_code := 502; json := []; link_header := None |}.

Definition endless (rq : Request) : Response :=
  {| status_code := 200; json := [Sample.stale];
     link_header := Some (next_link first_page) |}.

Definition refusing (rq : Request) : Response :=
  if String.eqb (method rq) "DELETE"
  then {| status_code := 404; json := []; link_header := None |}
  else Sample.one_page rq.

Definition flaky (rq : Request) : Response :=
  if String.eqb (req_url rq) (version_url "user/test" "test-package" 3001)
  then {| status_code := 500; json := []; link_header := None |}
  else Sample.one_page rq.

Definition world_of (reg : Request -> Response) : World :=
  {| clock := 1718020800 * MICROS; logged := []; sent := []; token_calls := 0;
     registry := reg |}.

(** Command lines. *)
Definition dry_args : CleanupArgs :=
  {| namespace := "user/test"; package := "test-package";
     tagged_max_age := Sample.two_days; really_remove := false;
     keep_tags_pattern := Sample.archive_pattern; all := None |}.

Definition live_args : CleanupArgs :=
  {| namespace := "user/test"; package := "test-package";
     tagged_max_age := Sample.two_days; really_remove := true;
     keep_tags_pattern := Sample.archive_pattern; all := None |}.

Definition purge_args : CleanupArgs :=
  {| namespace := "user/test"; package := "test-package";
     tagged_max_age := Sample.two_days; really_remove := true;
     keep_tags_pattern := "("; all := Some "yes-remove-all" |}.

Definition misspelt_args : CleanupArgs :=
  {| namespace := "user/test"; package := "test-package";
     tagged_max_age := Sample.two_days; really_remove := true;
     keep_tags_pattern := Sample.archive_pattern; all := Some "yes" |}.

(** The world the sample listing leaves behind. *)
Definition listed (reg : Request -> Response) : World :=
  snd (world_lister 10 "test-token" "user/test" "test-package" (world_of reg)).

End Cases.

(** Tactics that settle the side conditions on the sample data. *)
Ltac sample_policy := unfold policy_ok; repeat split; vm_compute; reflexivity.
Ltac sample_utc :=
  repeat (constructor; [eexists; split; vm_compute; reflexivity|]); constructor.
Ltac sample_nodup := vm_compute; repeat constructor; simpl; intuition discriminate.

(** * Facts *)

(** ** Library steps *)

Lemma timedelta_seconds_value n delta :
  timedelta_seconds n = inr delta -> delta = n * MICROS.
Proof.
  unfold timedelta_seconds.
  destruct (_ && _); intros H; inversion H; reflexivity.
Qed.

Lemma datetime_minus_value d delta c :
  datetime_minus d delta = inr c -> us c = us d - delta /\ aware c = aware d.
Proof.
  unfold datetime_minus.
  destruct (_ && _); intros H; inversion H; subst; simpl; auto.
Qed.

Lemma tolerance_value :
  timedelta_seconds timestamp_tolerance_seconds = inr (timestamp_tolerance_seconds * MICROS).
Proof. reflexivity. Qed.

(** ** The dict *)

Lemma dict_set_fresh {V} (d : dict V) k v :
  ~ In k (map fst d) -> dict_set d k v = d ++ [(k, v)].
Proof.
  induction d as [|[k' v'] d IH]; simpl; intros Hn; [reflexivity|].
  destruct (Z.eqb_spec k' k) as [->|Hne].
  - exfalso; apply Hn; now left.
  - f_equal. apply IH. intros Hin; apply Hn; now right.
Qed.

Lemma dict_set_In {V} (d : dict V) k v e :
  In e (dict_set d k v) -> e = (k, v) \/ In e d.
Proof.
  induction d as [|[k' v'] d IH]; simpl.
  - intros [<-|[]]; now left.
  - destruct (k' =? k); simpl.
    + intros [<-|H]; [now left | right; now right].
    + intros [<-|H]; [right; now left|].
      destruct (IH H) as [->|H']; [now left | right; now right].
Qed.

(** ** The partition loop *)

Section EngineFacts.
Context {rt : PyRuntime}.

Lemma separate_spec versions : forall tagged orphans,
  separate versions tagged orphans =
  (tagged ++ filter has_real_tags versions,
   orphans ++ filter (fun v => negb (has_real_tags v)) versions).
Proof.
  induction versions as [|v rest IH]; intros tagged orphans; simpl.
  - now rewrite !app_nil_r.
  - destruct (has_real_tags v); simpl; rewrite IH, <- app_assoc; reflexivity.
Qed.

Lemma tagged_group_filter versions :
  tagged_group versions = filter has_real_tags versions.
Proof. unfold tagged_group. now rewrite separate_spec. Qed.

Lemma orphan_group_filter versions :
  orphan_group versions = filter (fun v => negb (has_real_tags v)) versions.
Proof. unfold orphan_group. now rewrite separate_spec. Qed.

Lemma utc_created_of v :
  (exists d, parse_created_at v = inr d /\ aware d = true) ->
  parse_created_at v = inr (created_of v) /\ aware (created_of v) = true.
Proof.
  intros (d & Hd & Ha). unfold created_of. rewrite Hd. auto.
Qed.

Lemma utc_timestamps_filter f versions :
  utc_timestamps versions -> utc_timestamps (filter f versions).
Proof.
  unfold utc_timestamps. rewrite !Forall_forall.
  intros H v Hv. apply filter_In in Hv. apply H, Hv.
Qed.

(** ** The loop over the tagged versions *)

Lemma classify_tagged_closed cutoff delta p pat v :
  aware cutoff = true ->
  (exists d, parse_created_at v = inr d /\ aware d = true) ->
  classify_tagged cutoff delta p pat v =
  inr (created_of v, action (decide_tagged cutoff delta p pat v),
       reason (decide_tagged cutoff delta p pat v)) /\
  version (decide_tagged cutoff delta p pat v) = v.
Proof.
  intros Hc Hv. destruct (utc_created_of v Hv) as [Hp Ha].
  unfold classify_tagged, decide_tagged. rewrite Hp. simpl.
  destruct (should_keep_due_to_pattern p v); simpl; [auto|].
  unfold datetime_gt. rewrite Ha, Hc. simpl.
  destruct (us cutoff <? us (created_of v)); simpl; auto.
Qed.

Lemma decide_tagged_version cutoff delta p pat v :
  version (decide_tagged cutoff delta p pat v) = v.
Proof.
  unfold decide_tagged.
  destruct (should_keep_due_to_pattern p v); [reflexivity|].
  destruct (_ <? _); reflexivity.
Qed.

Lemma process_tagged_closed cutoff delta p pat versions :
  aware cutoff = true ->
  utc_timestamps versions ->
  forall kept acts,
    process_tagged cutoff delta p pat versions kept acts =
    inr (fold_left record_kept (map (decide_tagged cutoff delta p pat) versions) kept,
         acts ++ map (decide_tagged cutoff delta p pat) versions).
Proof.
  intros Hc Hu. induction Hu as [|v rest Hv Hrest IH]; intros kept acts; simpl.
  - now rewrite app_nil_r.
  - destruct (classify_tagged_closed cutoff delta p pat v Hc Hv) as [E Ev].
    rewrite E. simpl.
    set (a := decide_tagged cutoff delta p pat v) in *.
    replace (mkCleanupAction v (action a) (reason a)) with a
      by (destruct a; simpl in *; now subst).
    replace (match action a with
             | keep => dict_set kept (id v) (created_of v)
             | delete => kept
             end) with (record_kept kept a)
      by (unfold record_kept; now rewrite Ev).
    rewrite IH, <- app_assoc. reflexivity.
Qed.

(** ** The kept table *)

Lemma kept_from_tagged acts : forall kept e,
  In e (fold_left record_kept acts kept) ->
  In e kept \/ exists a, In a acts /\ action a = keep /\ e = kept_entry a.
Proof.
  induction acts as [|a acts IH]; intros kept e; simpl; [auto|].
  intros H. destruct (IH _ _ H) as [Hk|(b & Hb & Hkeep & He)].
  - unfold record_kept in Hk. destruct (action a) eqn:Ea; [|auto].
    destruct (dict_set_In _ _ _ _ Hk) as [->|Hk']; [|auto].
    right. exists a. repeat split; auto.
  - right. exists b. repeat split; auto.
Qed.

Lemma kept_unique_ids acts : forall kept,
  NoDup (map fst kept ++ map (fun a => id (version a)) acts) ->
  fold_left record_kept acts kept = kept ++ map kept_entry (filter says_keep acts).
Proof.
  induction acts as [|a acts IH]; intros kept Hnd; simpl.
  - now rewrite app_nil_r.
  - assert (Hfresh : ~ In (id (version a)) (map fst kept)).
    { intros Hin. apply NoDup_remove_2 in Hnd. apply Hnd.
      apply in_or_app. now left. }
    assert (Hrest : NoDup (map fst kept ++ map (fun a => id (version a)) acts))
      by (eapply NoDup_remove_1; exact Hnd).
    unfold record_kept at 2, says_keep at 1. destruct (action a) eqn:Ea; simpl.
    + rewrite dict_set_fresh by assumption.
      rewrite IH.
      * rewrite <- app_assoc. reflexivity.
      * rewrite map_app, <- app_assoc. simpl.
        apply NoDup_remove in Hnd as [_ Hn2].
        apply NoDup_Add with (a := id (version a))
          (l := map fst kept ++ map (fun a => id (version a)) acts).
        -- apply Add_app.
        -- split; assumption.
    + apply IH, Hrest.
Qed.

Lemma kept_aware acts : forall kept,
  Forall (fun e => aware (snd e) = true) kept ->
  Forall (fun a => aware (created_of (version a)) = true) acts ->
  Forall (fun e => aware (snd e) = true) (fold_left record_kept acts kept).
Proof.
  induction acts as [|a acts IH]; intros kept Hk Ha; simpl; [assumption|].
  inversion Ha as [|? ? Ha1 Ha2]; subst.
  apply IH; [|assumption].
  unfold record_kept. destruct (action a); [|assumption].
  rewrite Forall_forall in *. intros e He.
  destruct (dict_set_In _ _ _ _ He) as [->|He']; [exact Ha1 | now apply Hk].
Qed.

(** ** The loop over the potential orphans *)

Lemma find_kept_match_closed d kept :
  aware d = true ->
  Forall (fun e => aware (snd e) = true) kept ->
  find_kept_match d (timestamp_tolerance_seconds * MICROS) kept =
  inr (option_map fst (find (near d) kept)).
Proof.
  intros Hd Hk. induction Hk as [|[k t] kept Ht Hk IH]; simpl; [reflexivity|].
  simpl in Ht. unfold datetime_diff. rewrite Hd, Ht. simpl.
  unfold near at 1. simpl.
  match goal with
  | |- context [Z.abs ?x <=? ?y] => destruct (Z.abs x <=? y)
  end; [reflexivity | exact IH].
Qed.

Lemma classify_orphan_closed kept v :
  Forall (fun e => aware (snd e) = true) kept ->
  (exists d, parse_created_at v = inr d /\ aware d = true) ->
  classify_orphan kept v = inr (decide_orphan kept v).
Proof.
  intros Hk Hv. destruct (utc_created_of v Hv) as [Hp Ha].
  unfold classify_orphan, decide_orphan. rewrite Hp. cbn [rbind].
  rewrite tolerance_value. cbn [rbind].
  rewrite find_kept_match_closed by assumption. cbn [rbind].
  destruct (find (near (created_of v)) kept) as [[k t]|]; reflexivity.
Qed.

Lemma process_orphans_closed kept versions :
  Forall (fun e => aware (snd e) = true) kept ->
  utc_timestamps versions ->
  forall acts,
    process_orphans kept versions acts = inr (acts ++ map (decide_orphan kept) versions).
Proof.
  intros Hk Hu. induction Hu as [|v rest Hv Hrest IH]; intros acts; simpl.
  - now rewrite app_nil_r.
  - rewrite classify_orphan_closed by assumption. simpl.
    rewrite IH, <- app_assoc. reflexivity.
Qed.

Lemma decide_orphan_version kept v : version (decide_orphan kept v) = v.
Proof.
  unfold decide_orphan. destruct (find _ kept) as [[k t]|]; reflexivity.
Qed.

(** ** The engine as a whole *)

(** The engine reads the clock and nothing else of the world, and
    leaves the world as it found it. *)
Lemma find_versions_reads_clock versions age pat remove_all :
  exists f : Z -> result (list CleanupAction),
    forall w, find_versions_to_clean versions age pat remove_all w = (f (clock w), w).
Proof.
  unfold find_versions_to_clean.
  destruct remove_all.
  - eexists (fun _ => _). intros w. reflexivity.
  - destruct (separate versions [] []) as [tagged orphans].
    exists (fun now =>
      tagged_max_age_delta <-? timedelta_seconds age ;;
      cutoff_date <-? datetime_minus (mkDatetime now true) tagged_max_age_delta ;;
      pattern <-? match re_compile pat with Some p => inr p | None => inl ReError end ;;
      r <-? process_tagged cutoff_date tagged_max_age_delta pattern pat tagged [] [] ;;
      let '(kept, cleanup_actions) := r in
      process_orphans kept orphans cleanup_actions).
    intros w. unfold bind, lift, datetime_now, rbind.
    destruct (timedelta_seconds age); [reflexivity|].
    destruct (datetime_minus _ _); [reflexivity|].
    destruct (re_compile pat); [|reflexivity].
    destruct (process_tagged _ _ _ _ _ _ _) as [|[kept acts]]; reflexivity.
Qed.

Lemma find_versions_closed versions age pat w delta cutoff p :
  policy_ok w age pat delta cutoff p ->
  utc_timestamps versions ->
  find_versions_to_clean versions age pat false w =
  (inr (engine_closed cutoff delta p pat versions), w).
Proof.
  intros (Hd & Hc & Hp) Hu.
  assert (Hca : aware cutoff = true)
    by (apply datetime_minus_value in Hc; now destruct Hc).
  unfold find_versions_to_clean, engine_closed.
  rewrite tagged_group_filter, orphan_group_filter, separate_spec. simpl.
  unfold bind, lift, datetime_now. rewrite Hd, Hc, Hp.
  rewrite process_tagged_closed by (auto using utc_timestamps_filter). simpl.
  rewrite process_orphans_closed; [reflexivity | | auto using utc_timestamps_filter].
  apply kept_aware; [constructor|].
  rewrite Forall_map, Forall_forall. intros v Hv.
  rewrite decide_tagged_version.
  apply filter_In in Hv as [Hv _].
  unfold utc_timestamps in Hu. rewrite Forall_forall in Hu.
  apply utc_created_of, Hu, Hv.
Qed.

Lemma tagged_group_In versions v :
  In v (tagged_group versions) <-> In v versions /\ has_real_tags v = true.
Proof. rewrite tagged_group_filter. apply filter_In. Qed.

Lemma orphan_group_In versions v :
  In v (orphan_group versions) <-> In v versions /\ has_real_tags v = false.
Proof.
  rewrite orphan_group_filter, filter_In, negb_true_iff. reflexivity.
Qed.

Lemma engine_closed_In cutoff delta p pat versions a :
  In a (engine_closed cutoff delta p pat versions) <->
  (In (version a) (tagged_group versions) /\
   a = decide_tagged cutoff delta p pat (version a)) \/
  (In (version a) (orphan_group versions) /\
   a = decide_orphan
         (fold_left record_kept
            (map (decide_tagged cutoff delta p pat) (tagged_group versions)) [])
         (version a)).
Proof.
  unfold engine_closed. rewrite in_app_iff, !in_map_iff. split.
  - intros [(v & <- & Hv)|(v & <- & Hv)].
    + left. rewrite decide_tagged_version. auto.
    + right. rewrite decide_orphan_version. auto.
  - intros [(Hv & E)|(Hv & E)]; [left|right]; exists (version a); auto.
Qed.

Lemma fold_append_map {A B} (f : A -> B) (l : list A) : forall init,
  fold_left (fun acc x => acc ++ [f x]) l init = init ++ map f l.
Proof.
  induction l as [|x l IH]; intros init; simpl.
  - now rewrite app_nil_r.
  - rewrite IH, <- app_assoc. reflexivity.
Qed.

Lemma remove_all_marks_everything_aux versions age pat w :
  exists acts,
    find_versions_to_clean versions age pat true w = (inr acts, w) /\
    map version acts = versions.
Proof.
  unfold find_versions_to_clean, ret. rewrite fold_append_map. simpl.
  eexists. split; [reflexivity|].
  rewrite map_map. simpl. apply map_id.
Qed.

(** ** The claims about the engine *)

(** C4.  With [remove_all] set, the engine returns, for any age, any
    pattern (compilable or not) and any timestamps (parsable or not),
    one action per input version, in input order, each of them
    [delete] with the reason that names the flag; the world is left
    as it was. *)
Theorem remove_all_marks_everything versions age pat w :
  exists acts,
    find_versions_to_clean versions age pat true w = (inr acts, w) /\
    map version acts = versions /\
    forall a, In a acts -> action a = delete /\ reason a = reason_remove_all.
Proof.
  unfold find_versions_to_clean, ret. rewrite fold_append_map. simpl.
  eexists. split; [reflexivity|]. split.
  - rewrite map_map. simpl. apply map_id.
  - intros a Ha. apply in_map_iff in Ha as (v & <- & _). auto.
Qed.

(** C2.  On well-formed input the engine returns; every version of the
    tagged group gets an action, and when one of its tags is found by
    [pattern.search] the action is [keep] with the keep-pattern
    reason, whatever its [created_at] is with respect to the cutoff. *)
Theorem keep_pattern_wins versions age pat w delta cutoff p :
  policy_ok w age pat delta cutoff p ->
  utc_timestamps versions ->
  exists acts,
    find_versions_to_clean versions age pat false w = (inr acts, w) /\
    (forall v, In v (tagged_group versions) -> exists a, In a acts /\ version a = v) /\
    forall a, In a acts -> In (version a) (tagged_group versions) ->
      (exists tag, In tag (get_tags (version a)) /\ re_search p tag = true) ->
      action a = keep /\ reason a = reason_pattern pat.
Proof.
  intros Hpol Hu. eexists. split; [apply find_versions_closed; eassumption|]. split.
  - intros v Hv. exists (decide_tagged cutoff delta p pat v). split.
    + apply engine_closed_In. left. rewrite decide_tagged_version. auto.
    + apply decide_tagged_version.
  - intros a Ha Hv Htag.
    apply engine_closed_In in Ha as [(_ & E)|(Ho & _)].
    + assert (Hyes : should_keep_due_to_pattern p (version a) = true)
        by (apply existsb_exists; exact Htag).
      unfold decide_tagged in E. rewrite Hyes in E. rewrite E. auto.
    + apply tagged_group_In in Hv as [_ Hv].
      apply orphan_group_In in Ho as [_ Ho]. congruence.
Qed.

(** C3.  On well-formed input the engine returns; every version of the
    tagged group gets an action, and when none of its tags is found by
    [pattern.search] the action is [keep], with the newer-than reason,
    exactly when its creation time is strictly after now minus the
    maximum age; otherwise, and in particular at the cutoff instant
    itself, it is [delete] with the older-than reason. *)
Theorem age_rule_is_strict versions age pat w delta cutoff p :
  policy_ok w age pat delta cutoff p ->
  utc_timestamps versions ->
  exists acts,
    find_versions_to_clean versions age pat false w = (inr acts, w) /\
    (forall v, In v (tagged_group versions) -> exists a, In a acts /\ version a = v) /\
    forall a d, In a acts -> In (version a) (tagged_group versions) ->
      (forall tag, In tag (get_tags (version a)) -> re_search p tag = false) ->
      parse_created_at (version a) = inr d ->
      (action a = keep <-> clock w - age * MICROS < us d) /\
      (clock w - age * MICROS < us d -> reason a = reason_newer (age * MICROS)) /\
      (us d <= clock w - age * MICROS ->
       action a = delete /\ reason a = reason_older (age * MICROS)).
Proof.
  intros Hpol Hu. eexists. split; [apply find_versions_closed; eassumption|]. split.
  - intros v Hv. exists (decide_tagged cutoff delta p pat v). split.
    + apply engine_closed_In. left. rewrite decide_tagged_version. auto.
    + apply decide_tagged_version.
  - intros a d Ha Hv Htag Hd.
    destruct Hpol as (Hdelta & Hcut & _).
    apply timedelta_seconds_value in Hdelta. subst delta.
    apply datetime_minus_value in Hcut as [Hcut _]. simpl in Hcut.
    apply engine_closed_In in Ha as [(_ & E)|(Ho & _)].
    + assert (Hno : should_keep_due_to_pattern p (version a) = false).
      { unfold should_keep_due_to_pattern.
        destruct (existsb _ _) eqn:Ex; [|reflexivity].
        apply existsb_exists in Ex as (tag & Hin & Hs).
        rewrite (Htag tag Hin) in Hs. discriminate. }
      unfold decide_tagged in E. rewrite Hno in E.
      unfold created_of in E. rewrite Hd, Hcut in E.
      destruct (Z.ltb_spec (clock w - age * MICROS) (us d)) as [Hlt|Hge];
        rewrite E; simpl; repeat split; auto; try lia; try discriminate.
    + apply tagged_group_In in Hv as [_ Hv].
      apply orphan_group_In in Ho as [_ Ho]. congruence.
Qed.

Lemma partition_permutation {A} (f : A -> bool) (l : list A) :
  Permutation (filter f l ++ filter (fun x => negb (f x)) l) l.
Proof.
  induction l as [|x l IH]; simpl; [constructor|].
  destruct (f x); simpl.
  - now constructor.
  - apply Permutation_sym, Permutation_cons_app, Permutation_sym, IH.
Qed.

Lemma engine_closed_versions cutoff delta p pat versions :
  map version (engine_closed cutoff delta p pat versions) =
  tagged_group versions ++ orphan_group versions.
Proof.
  unfold engine_closed. rewrite map_app, !map_map. f_equal.
  - erewrite map_ext; [apply map_id|]. intros v. apply decide_tagged_version.
  - erewrite map_ext; [apply map_id|]. intros v. apply decide_orphan_version.
Qed.

(** C6, as amended.  Without [remove_all], on well-formed input, the
    engine returns the actions of the tagged group in input order
    followed by those of the potential-orphan group in input order;
    with [remove_all] it returns them in the order of the input
    itself.  Either way every input version appears exactly once and
    there are as many actions as input versions. *)
Theorem output_order_and_count versions age pat remove_all w delta cutoff p :
  (remove_all = false -> policy_ok w age pat delta cutoff p /\ utc_timestamps versions) ->
  exists acts,
    find_versions_to_clean versions age pat remove_all w = (inr acts, w) /\
    map version acts =
      (if remove_all then versions else tagged_group versions ++ orphan_group versions) /\
    Permutation (map version acts) versions /\
    List.length acts = List.length versions.
Proof.
  intros H. destruct remove_all.
  - destruct (remove_all_marks_everything_aux versions age pat w) as (acts & E & Hv).
    exists acts. split; [exact E|]. split; [exact Hv|]. split.
    + rewrite Hv. apply Permutation_refl.
    + rewrite <- Hv. now rewrite length_map.
  - destruct (H eq_refl) as [Hpol Hu].
    eexists. split; [apply find_versions_closed; eassumption|].
    rewrite engine_closed_versions.
    assert (P : Permutation (tagged_group versions ++ orphan_group versions) versions)
      by (rewrite tagged_group_filter, orphan_group_filter; apply partition_permutation).
    repeat split; auto.
    rewrite <- (length_map version), engine_closed_versions.
    apply Permutation_length, P.
Qed.

(** C8.  The engine's answer is a function of its arguments and of
    the instant the clock shows, and running it changes nothing: two
    worlds whose clocks agree give the same answer, each world is
    left as it was, and a second run right after the first repeats
    its answer. *)
Theorem engine_is_pure versions age pat remove_all w1 w2 :
  clock w1 = clock w2 ->
  fst (find_versions_to_clean versions age pat remove_all w1) =
  fst (find_versions_to_clean versions age pat remove_all w2) /\
  snd (find_versions_to_clean versions age pat remove_all w1) = w1 /\
  snd (find_versions_to_clean versions age pat remove_all w2) = w2 /\
  forall acts,
    fst (find_versions_to_clean versions age pat remove_all w1) = inr acts ->
    (first <- find_versions_to_clean versions age pat remove_all ;;
     second <- find_versions_to_clean versions age pat remove_all ;;
     ret (first, second)) w1 = (inr (acts, acts), w1).
Proof.
  intros Hclock.
  destruct (find_versions_reads_clock versions age pat remove_all) as (f & Hf).
  rewrite (Hf w1), (Hf w2), Hclock. simpl. repeat split.
  intros acts Hacts. unfold bind, ret. rewrite (Hf w1), Hclock, Hacts.
  rewrite (Hf w1), Hclock, Hacts. reflexivity.
Qed.

(** ** The git-commit exception *)

Lemma has_real_tags_false_iff v :
  has_real_tags v = false <-> get_tags v = [] \/ sole_git_commit_tag v.
Proof.
  unfold has_real_tags, sole_git_commit_tag.
  destruct (get_tags v) as [|t [|t' rest]]; simpl.
  - split; auto.
  - destruct (git_commit_regex_match t) eqn:E; simpl; split; auto.
    + intros _. right. exists t. auto.
    + discriminate.
    + intros [H|(t0 & H & H')]; [discriminate|].
      inversion H; subst. congruence.
  - split; [discriminate|].
    intros [H|(t0 & H & _)]; discriminate.
Qed.

(** C5.  A version whose only tag starts with [git-commit-] goes to
    the potential-orphan group and not to the tagged group; a version
    with at least one tag that is not such a version goes to the
    tagged group and not to the potential-orphan group.  On
    well-formed input the engine returns, and the action it gives a
    sole-git-commit version is the one the orphan step computes from
    the kept table: [delete] as an orphan, or [keep] by correlation. *)
Theorem sole_git_commit_goes_the_orphan_way versions age pat w delta cutoff p :
  policy_ok w age pat delta cutoff p ->
  utc_timestamps versions ->
  (forall v, In v versions -> sole_git_commit_tag v ->
     In v (orphan_group versions) /\ ~ In v (tagged_group versions)) /\
  (forall v, In v versions -> get_tags v <> [] -> ~ sole_git_commit_tag v ->
     In v (tagged_group versions) /\ ~ In v (orphan_group versions)) /\
  exists acts kept tagged_actions,
    find_versions_to_clean versions age pat false w = (inr acts, w) /\
    process_tagged cutoff delta p pat (tagged_group versions) [] [] =
      inr (kept, tagged_actions) /\
    forall v, In v versions -> sole_git_commit_tag v ->
      (exists a, In a acts /\ version a = v) /\
      forall a, In a acts -> version a = v ->
        classify_orphan kept v = inr a /\
        ((action a = delete /\ reason a = reason_orphan) \/
         (action a = keep /\ exists kept_id, reason a = reason_correlated kept_id)).
Proof.
  intros Hpol Hu.
  assert (Hca : aware cutoff = true).
  { destruct Hpol as (_ & Hc & _). apply datetime_minus_value in Hc. now destruct Hc. }
  assert (HuT : utc_timestamps (tagged_group versions))
    by (rewrite tagged_group_filter; now apply utc_timestamps_filter).
  split; [|split].
  - intros v Hv Hs.
    assert (Hf : has_real_tags v = false) by (apply has_real_tags_false_iff; auto).
    rewrite orphan_group_In, tagged_group_In. split; [auto|]. intros [_ Ht]. congruence.
  - intros v Hv Hne Hs.
    assert (Ht : has_real_tags v = true).
    { destruct (has_real_tags v) eqn:E; [reflexivity|].
      apply has_real_tags_false_iff in E as [E|E]; contradiction. }
    rewrite orphan_group_In, tagged_group_In. split; [auto|]. intros [_ Hf]. congruence.
  - do 3 eexists. split; [apply find_versions_closed; eassumption|].
    split; [apply process_tagged_closed; assumption|].
    intros v Hv Hs.
    assert (Hf : has_real_tags v = false) by (apply has_real_tags_false_iff; auto).
    assert (Ho : In v (orphan_group versions)) by (apply orphan_group_In; auto).
    set (kept := fold_left record_kept
                   (map (decide_tagged cutoff delta p pat) (tagged_group versions)) []).
    assert (Hk : Forall (fun e => aware (snd e) = true) kept).
    { apply kept_aware; [constructor|].
      rewrite Forall_map, Forall_forall. intros x Hx.
      rewrite decide_tagged_version.
      unfold utc_timestamps in HuT. rewrite Forall_forall in HuT.
      apply utc_created_of, HuT, Hx. }
    assert (Hvu : exists d, parse_created_at v = inr d /\ aware d = true).
    { unfold utc_timestamps in Hu. rewrite Forall_forall in Hu. auto. }
    split.
    + exists (decide_orphan kept v). split; [|apply decide_orphan_version].
      apply engine_closed_In. right. rewrite decide_orphan_version. auto.
    + intros a Ha Hav.
      apply engine_closed_In in Ha as [(Ht & _)|(_ & E)].
      * rewrite Hav in Ht. apply tagged_group_In in Ht as [_ Ht]. congruence.
      * rewrite Hav in E. fold kept in E. simpl.
        rewrite classify_orphan_closed by assumption. split; [congruence|].
        rewrite E. unfold decide_orphan.
        destruct (find _ kept) as [[k t]|]; simpl; eauto.
Qed.

(** ** Correlation of orphans with kept tagged versions *)

Lemma find_app_split {A} (f : A -> bool) (l1 l2 : list A) :
  find f (l1 ++ l2) = match find f l1 with Some x => Some x | None => find f l2 end.
Proof.
  induction l1 as [|x l1 IH]; simpl; [reflexivity|].
  destruct (f x); [reflexivity | exact IH].
Qed.

Lemma find_pointwise {A} (f g : A -> bool) (l : list A) :
  (forall x, In x l -> f x = g x) -> find f l = find g l.
Proof.
  induction l as [|x l IH]; simpl; intros H; [reflexivity|].
  rewrite (H x) by now left.
  destruct (g x); [reflexivity|]. apply IH. intros y Hy. apply H. now right.
Qed.

Lemma find_all_false {A} (f : A -> bool) (l : list A) :
  (forall x, In x l -> f x = false) -> find f l = None.
Proof.
  induction l as [|x l IH]; simpl; intros H; [reflexivity|].
  rewrite (H x) by now left. apply IH. intros y Hy. apply H. now right.
Qed.

Lemma find_map_filter {A B} (f : B -> bool) (g : A -> B) (h : A -> bool) (l : list A) :
  find f (map g (filter h l)) = option_map g (find (fun x => h x && f (g x)) l).
Proof.
  induction l as [|x l IH]; simpl; [reflexivity|].
  destruct (h x); simpl; [|exact IH].
  destruct (f (g x)); [reflexivity | exact IH].
Qed.

Lemma NoDup_map_filter {A B} (f : A -> B) (g : A -> bool) (l : list A) :
  NoDup (map f l) -> NoDup (map f (filter g l)).
Proof.
  induction l as [|x l IH]; simpl; intros H; [constructor|].
  inversion H as [|? ? Hn Hr]; subst.
  destruct (g x); simpl; [|auto].
  constructor; [|auto].
  intros Hin. apply Hn. apply in_map_iff in Hin as (y & Ey & Hy).
  apply filter_In in Hy as [Hy _]. apply in_map_iff. eauto.
Qed.

(** Ids that are unique over the whole input are unique over the
    tagged group. *)
Lemma unique_ids_tagged_group versions :
  NoDup (map id versions) -> NoDup (map id (tagged_group versions)).
Proof.
  intros H. rewrite tagged_group_filter. now apply NoDup_map_filter.
Qed.

Lemma within_tolerance_near o k :
  (exists d, parse_created_at o = inr d /\ aware d = true) ->
  (exists d, parse_created_at k = inr d /\ aware d = true) ->
  forall i, within_tolerance o k = near (created_of o) (i, created_of k).
Proof.
  intros Ho Hk i.
  destruct (utc_created_of o Ho) as [Eo _], (utc_created_of k Hk) as [Ek _].
  unfold within_tolerance, near. rewrite Eo, Ek. reflexivity.
Qed.

(** The first kept tagged action within tolerance of [o], looked up in
    the action list, against the first entry within tolerance, looked
    up in the kept table. *)
Lemma first_kept_match cutoff delta p pat versions o :
  utc_timestamps versions ->
  NoDup (map id (tagged_group versions)) ->
  (exists d, parse_created_at o = inr d /\ aware d = true) ->
  let tagged_actions := map (decide_tagged cutoff delta p pat) (tagged_group versions) in
  find (near (created_of o)) (fold_left record_kept tagged_actions []) =
  option_map kept_entry
    (find (fun b => is_kept_tagged b && within_tolerance o (version b))
       (engine_closed cutoff delta p pat versions)).
Proof.
  intros Hu Hnd Ho tagged_actions.
  unfold engine_closed. fold tagged_actions.
  rewrite kept_unique_ids.
  2:{ simpl. unfold tagged_actions. rewrite map_map.
      erewrite map_ext; [|intros v; rewrite decide_tagged_version; reflexivity].
      exact Hnd. }
  simpl. rewrite find_map_filter, find_app_split.
  rewrite (find_all_false _ (map _ (orphan_group versions))).
  2:{ intros b Hb. apply in_map_iff in Hb as (v & <- & Hv).
      apply orphan_group_In in Hv as [_ Hv].
      unfold is_kept_tagged. rewrite !decide_orphan_version, Hv. reflexivity. }
  rewrite (find_pointwise
             (fun b => is_kept_tagged b && within_tolerance o (version b))
             (fun b => says_keep b && near (created_of o) (kept_entry b)) tagged_actions).
  - destruct (find _ tagged_actions); reflexivity.
  - intros b Hb. apply in_map_iff in Hb as (v & <- & Hv).
    apply tagged_group_In in Hv as [Hv Ht].
    unfold is_kept_tagged, says_keep, kept_entry.
    rewrite decide_tagged_version, Ht. simpl. f_equal.
    apply within_tolerance_near; [assumption|].
    unfold utc_timestamps in Hu. rewrite Forall_forall in Hu. auto.
Qed.

Lemma filter_all_false {A} (f : A -> bool) (l : list A) :
  (forall x, In x l -> f x = false) -> filter f l = [].
Proof.
  induction l as [|x l IH]; simpl; intros H; [reflexivity|].
  rewrite (H x) by now left. apply IH. intros y Hy. apply H. now right.
Qed.

(** With unique ids the keys of the kept table are the ids of the kept
    tagged actions, in the order of the action list. *)
Lemma kept_table_order cutoff delta p pat versions :
  NoDup (map id (tagged_group versions)) ->
  map fst (fold_left record_kept
             (map (decide_tagged cutoff delta p pat) (tagged_group versions)) []) =
  map (fun b => id (version b))
      (filter is_kept_tagged (engine_closed cutoff delta p pat versions)).
Proof.
  intros Hnd. rewrite kept_unique_ids.
  2:{ simpl. rewrite map_map.
      erewrite map_ext; [|intros v; rewrite decide_tagged_version; reflexivity].
      exact Hnd. }
  simpl. unfold engine_closed. rewrite filter_app.
  rewrite (filter_all_false _ (map _ (orphan_group versions))).
  2:{ intros b Hb. apply in_map_iff in Hb as (v & <- & Hv).
      apply orphan_group_In in Hv as [_ Hv].
      unfold is_kept_tagged. rewrite decide_orphan_version, Hv. reflexivity. }
  rewrite app_nil_r, map_map. simpl. f_equal.
  apply filter_ext_in. intros b Hb. apply in_map_iff in Hb as (v & <- & Hv).
  apply tagged_group_In in Hv as [_ Hv].
  unfold is_kept_tagged, says_keep. rewrite decide_tagged_version, Hv. reflexivity.
Qed.

(** C1.  On well-formed input whose tagged versions have pairwise
    distinct ids (the data model makes ids unique over the whole
    input) the engine returns; the keys of the kept table are the ids
    of the kept tagged actions in the order of the action list; and
    for every action on a version of the potential-orphan group: the
    action is [keep] exactly when some kept tagged version was created
    at most ten seconds before or after it; it then cites the id of
    the first such version in that order; otherwise the action is
    [delete] with the orphan reason. *)
Theorem orphan_kept_iff_correlated versions age pat w delta cutoff p :
  policy_ok w age pat delta cutoff p ->
  utc_timestamps versions ->
  NoDup (map id (tagged_group versions)) ->
  exists acts kept tagged_actions,
    find_versions_to_clean versions age pat false w = (inr acts, w) /\
    process_tagged cutoff delta p pat (tagged_group versions) [] [] =
      inr (kept, tagged_actions) /\
    map fst kept = map (fun b => id (version b)) (filter is_kept_tagged acts) /\
    (forall v, In v (orphan_group versions) -> exists a, In a acts /\ version a = v) /\
    forall a, In a acts -> In (version a) (orphan_group versions) ->
      (action a = keep <->
       exists b, In b acts /\ is_kept_tagged b = true /\
                 within_tolerance (version a) (version b) = true) /\
      match find (fun b => is_kept_tagged b && within_tolerance (version a) (version b)) acts with
      | Some b => action a = keep /\ reason a = reason_correlated (id (version b))
      | None => action a = delete /\ reason a = reason_orphan
      end.
Proof.
  intros Hpol Hu Hnd.
  assert (Hca : aware cutoff = true).
  { destruct Hpol as (_ & Hc & _). apply datetime_minus_value in Hc. now destruct Hc. }
  assert (HuT : utc_timestamps (tagged_group versions))
    by (rewrite tagged_group_filter; now apply utc_timestamps_filter).
  do 3 eexists.
  split; [apply find_versions_closed; eassumption|].
  split; [apply process_tagged_closed; assumption|].
  split; [apply kept_table_order; assumption|].
  split.
  - intros v Hv. eexists. split; [|apply decide_orphan_version].
    apply engine_closed_In. right. rewrite decide_orphan_version. eauto.
  - intros a Ha Ho.
    assert (Hau : exists d, parse_created_at (version a) = inr d /\ aware d = true).
    { apply orphan_group_In in Ho as [Ho _].
      unfold utc_timestamps in Hu. rewrite Forall_forall in Hu. auto. }
    assert (Hmatch :
      match find (fun b => is_kept_tagged b && within_tolerance (version a) (version b))
                 (engine_closed cutoff delta p pat versions) with
      | Some b => action a = keep /\ reason a = reason_correlated (id (version b))
      | None => action a = delete /\ reason a = reason_orphan
      end).
    { apply engine_closed_In in Ha as [(Ht & _)|(_ & E)].
      - apply tagged_group_In in Ht as [_ Ht].
        apply orphan_group_In in Ho as [_ Ho']. congruence.
      - unfold decide_orphan in E.
        rewrite (first_kept_match cutoff delta p pat versions (version a) Hu Hnd Hau) in E.
        destruct (find _ (engine_closed cutoff delta p pat versions)) as [b|];
          simpl in E; rewrite E; auto. }
    split; [|exact Hmatch].
    destruct (find _ (engine_closed cutoff delta p pat versions)) as [b|] eqn:Ef.
    + destruct Hmatch as [Hk _]. split; [intros _|auto].
      apply find_some in Ef as [Hb Hpred]. apply andb_true_iff in Hpred as [H1 H2].
      exists b. auto.
    + destruct Hmatch as [Hd _]. split; [congruence|].
      intros (b & Hb & H1 & H2).
      pose proof (find_none _ _ Ef b Hb) as Hf. simpl in Hf.
      rewrite H1, H2 in Hf. discriminate.
Qed.

(** Every entry of the kept table is the id and creation time of a
    tagged version whose action says [keep]. *)
Lemma kept_entries_are_kept_tagged cutoff delta p pat versions k t :
  utc_timestamps versions ->
  In (k, t)
     (fold_left record_kept
        (map (decide_tagged cutoff delta p pat) (tagged_group versions)) []) ->
  exists b,
    In b (engine_closed cutoff delta p pat versions) /\
    is_kept_tagged b = true /\
    id (version b) = k /\
    parse_created_at (version b) = inr t.
Proof.
  intros Hu Hin.
  apply kept_from_tagged in Hin as [[]|(b & Hb & Hkeep & He)].
  apply in_map_iff in Hb as (v & Ev & Hv).
  assert (Hbv : version b = v) by (rewrite <- Ev; apply decide_tagged_version).
  pose proof Hv as Hv'. apply tagged_group_In in Hv' as [Hin Htag].
  unfold kept_entry in He. inversion He; subst k t. clear He.
  exists b. split; [|split; [|split]].
  - apply engine_closed_In. left. rewrite Hbv. split; [exact Hv | now symmetry].
  - unfold is_kept_tagged. rewrite Hbv, Htag, Hkeep. reflexivity.
  - reflexivity.
  - rewrite Hbv. apply utc_created_of.
    unfold utc_timestamps in Hu. rewrite Forall_forall in Hu. auto.
Qed.

(** C10.  On well-formed input the engine returns, and: the kept
    table the tagged loop hands over holds only ids and creation times
    of tagged versions whose action says [keep]; every potential
    orphan is classified by [classify_orphan] against that one table,
    so (a) its action says [keep] only if a tagged version that was
    itself kept lies within the tolerance, never on the strength of
    another orphan; and (b) two runs whose inputs have the same tagged
    group give a potential orphan they share the same action, whatever
    the other orphans of either input are. *)
Theorem orphans_never_feed_the_table versions versions' age pat w delta cutoff p :
  policy_ok w age pat delta cutoff p ->
  utc_timestamps versions ->
  utc_timestamps versions' ->
  tagged_group versions = tagged_group versions' ->
  exists acts acts' kept tagged_actions,
    find_versions_to_clean versions age pat false w = (inr acts, w) /\
    find_versions_to_clean versions' age pat false w = (inr acts', w) /\
    process_tagged cutoff delta p pat (tagged_group versions) [] [] =
      inr (kept, tagged_actions) /\
    (forall kept_id kept_timestamp, In (kept_id, kept_timestamp) kept ->
       exists b, In b acts /\ is_kept_tagged b = true /\
                 id (version b) = kept_id /\
                 parse_created_at (version b) = inr kept_timestamp) /\
    (forall a, In a acts -> In (version a) (orphan_group versions) ->
       classify_orphan kept (version a) = inr a) /\
    (forall a, In a acts -> In (version a) (orphan_group versions) ->
       action a = keep ->
       exists b, In b acts /\ is_kept_tagged b = true /\
                 within_tolerance (version a) (version b) = true) /\
    (forall a a', In a acts -> In a' acts' ->
       In (version a) (orphan_group versions) ->
       version a = version a' -> a = a').
Proof.
  intros Hpol Hu Hu' Hsame.
  assert (Hca : aware cutoff = true).
  { destruct Hpol as (_ & Hc & _). apply datetime_minus_value in Hc. now destruct Hc. }
  assert (HuT : utc_timestamps (tagged_group versions))
    by (rewrite tagged_group_filter; now apply utc_timestamps_filter).
  set (kept := fold_left record_kept
                 (map (decide_tagged cutoff delta p pat) (tagged_group versions)) []).
  assert (Hk : Forall (fun e => aware (snd e) = true) kept).
  { apply kept_aware; [constructor|].
    rewrite Forall_map, Forall_forall. intros x Hx.
    rewrite decide_tagged_version.
    unfold utc_timestamps in HuT. rewrite Forall_forall in HuT.
    apply utc_created_of, HuT, Hx. }
  assert (Hutc : forall a, In (version a) (orphan_group versions) ->
                   exists d, parse_created_at (version a) = inr d /\ aware d = true).
  { intros a Ho. apply orphan_group_In in Ho as [Ho _].
    unfold utc_timestamps in Hu. rewrite Forall_forall in Hu. auto. }
  assert (Horphan : forall a,
            In a (engine_closed cutoff delta p pat versions) ->
            In (version a) (orphan_group versions) ->
            a = decide_orphan kept (version a)).
  { intros a Ha Ho. apply engine_closed_In in Ha as [(Ht & _)|(_ & E)]; [|exact E].
    apply tagged_group_In in Ht as [_ Ht].
    apply orphan_group_In in Ho as [_ Ho']. congruence. }
  exists (engine_closed cutoff delta p pat versions),
         (engine_closed cutoff delta p pat versions'), kept,
         ([] ++ map (decide_tagged cutoff delta p pat) (tagged_group versions)).
  split; [apply find_versions_closed; eassumption|].
  split; [apply find_versions_closed; eassumption|].
  split; [apply process_tagged_closed; assumption|].
  split; [|split; [|split]].
  - intros k t Hin. now apply kept_entries_are_kept_tagged.
  - intros a Ha Ho.
    rewrite classify_orphan_closed by auto.
    f_equal. symmetry. now apply Horphan.
  - intros a Ha Ho Hkeep.
    pose proof (Horphan a Ha Ho) as E. unfold decide_orphan in E.
    destruct (find _ kept) as [[k t]|] eqn:Ef;
      [|rewrite E in Hkeep; discriminate].
    apply find_some in Ef as [Hin Hnear].
    destruct (kept_entries_are_kept_tagged _ _ _ _ _ _ _ Hu Hin)
      as (b & Hb & Hbk & Hid & Hpb).
    exists b. split; [exact Hb|]. split; [exact Hbk|].
    destruct (utc_created_of _ (Hutc a Ho)) as [Hpa _].
    unfold within_tolerance. rewrite Hpa, Hpb. exact Hnear.
  - intros a a' Ha Ha' Ho Hv.
    pose proof (Horphan a Ha Ho) as E.
    apply engine_closed_In in Ha' as [(Ht' & _)|(_ & E')].
    + rewrite <- Hv, <- Hsame in Ht'. apply tagged_group_In in Ht' as [_ Ht'].
      apply orphan_group_In in Ho as [_ Ho']. congruence.
    + rewrite <- Hsame, <- Hv in E'. fold kept in E'. congruence.
Qed.

End EngineFacts.

(** ** The executor *)

(** C9.  In dry-run mode [remove_version] returns [True] for every
    namespace, package and version id and whatever the token provider
    and the requests module are: neither is called, so no token is
    asked for and no request is sent, and the only trace it leaves is
    one log record. *)
Theorem dry_run_sends_nothing namespace package_name version_id
    token_provider requests_module w :
  exists w',
    remove_version namespace package_name version_id true token_provider requests_module w
    = (inr true, w') /\
    sent w' = sent w /\
    token_calls w' = token_calls w /\
    clock w' = clock w /\
    registry w' = registry w /\
    logged w' = logged w ++
      [("INFO: [DRY RUN] Would remove version " ++ str_int version_id ++ " of "
        ++ namespace ++ "/" ++ package_name)%string].
Proof.
  eexists. split; [reflexivity|]. simpl. auto.
Qed.

(** ** The driver *)

Section DriverFacts.
Context {rt : PyRuntime}.

Lemma find_versions_bad_pattern all_versions age pat w :
  re_compile pat = None ->
  exists e,
    find_versions_to_clean all_versions age pat false w = (inl e, w) /\
    (forall delta cutoff,
       timedelta_seconds age = inr delta ->
       datetime_minus (mkDatetime (clock w) true) delta = inr cutoff ->
       e = ReError).
Proof.
  intros Hre. unfold find_versions_to_clean.
  destruct (separate all_versions [] []) as [tagged orphans].
  unfold bind, lift, datetime_now.
  destruct (timedelta_seconds age) as [e|delta] eqn:Ed.
  - exists e. split; [reflexivity|]. intros ? ? H. discriminate.
  - destruct (datetime_minus _ delta) as [e|cutoff] eqn:Ec.
    + exists e. split; [reflexivity|]. intros d c H H'.
      inversion H; subst. rewrite Ec in H'. discriminate.
    + rewrite Hre. exists ReError. split; [reflexivity | auto].
Qed.

(** C7, as amended.  When the command is run without [--all], the keep
    pattern does not compile and the listing succeeds, the command
    ends with an exception that it does not handle, raised by the
    engine after the listing and before any removal: the world is
    the one the listing left behind, with nothing logged or sent
    since, and the removal function is never called.  The exception
    is [re.error] whenever the cutoff date is representable. *)
Theorem bad_pattern_surfaces_after_listing args list_versions_func remove_version_func
    w w1 all_versions :
  re_compile (keep_tags_pattern args) = None ->
  all args = None ->
  list_versions_func (namespace args) (package args) w = (inr all_versions, w1) ->
  exists e,
    cleanup_versions_command args list_versions_func find_versions_to_clean
      remove_version_func w = (inl e, w1) /\
    (forall delta cutoff,
       timedelta_seconds (tagged_max_age args) = inr delta ->
       datetime_minus (mkDatetime (clock w1) true) delta = inr cutoff ->
       e = ReError).
Proof.
  intros Hre Hall Hlist.
  destruct (find_versions_bad_pattern all_versions (tagged_max_age args)
              (keep_tags_pattern args) w1 Hre) as (e & He & Hkind).
  exists e. split; [|exact Hkind].
  unfold cleanup_versions_command. rewrite Hall.
  unfold bind at 1. unfold ret at 1.
  unfold bind at 1. rewrite Hlist.
  unfold bind at 1. rewrite He. reflexivity.
Qed.

End DriverFacts.

(** * The claims on concrete data *)

(** The side conditions of C2 hold on the sample data. *)
Lemma keep_pattern_wins_witness :
  policy_ok Sample.world0 Sample.two_days Sample.archive_pattern
    Sample.delta0 Sample.cutoff0 Sample.pattern0 /\
  utc_timestamps Sample.versions /\
  exists acts,
    find_versions_to_clean Sample.versions Sample.two_days Sample.archive_pattern false
      Sample.world0 = (inr acts, Sample.world0) /\
    (forall v, In v (tagged_group Sample.versions) -> exists a, In a acts /\ version a = v) /\
    forall a, In a acts -> In (version a) (tagged_group Sample.versions) ->
      (exists tag, In tag (get_tags (version a)) /\ re_search Sample.pattern0 tag = true) ->
      action a = keep /\ reason a = reason_pattern Sample.archive_pattern.
Proof.
  assert (Hp : policy_ok Sample.world0 Sample.two_days Sample.archive_pattern
                 Sample.delta0 Sample.cutoff0 Sample.pattern0) by sample_policy.
  assert (Hu : utc_timestamps Sample.versions) by sample_utc.
  split; [exact Hp|]. split; [exact Hu|].
  exact (keep_pattern_wins Sample.versions Sample.two_days Sample.archive_pattern
           Sample.world0 Sample.delta0 Sample.cutoff0 Sample.pattern0 Hp Hu).
Defined.

(** The side conditions of C3 hold on the sample data. *)
Lemma age_rule_is_strict_witness :
  policy_ok Sample.world0 Sample.two_days Sample.archive_pattern
    Sample.delta0 Sample.cutoff0 Sample.pattern0 /\
  utc_timestamps Sample.versions /\
  exists acts,
    find_versions_to_clean Sample.versions Sample.two_days Sample.archive_pattern false
      Sample.world0 = (inr acts, Sample.world0) /\
    (forall v, In v (tagged_group Sample.versions) -> exists a, In a acts /\ version a = v) /\
    forall a d, In a acts -> In (version a) (tagged_group Sample.versions) ->
      (forall tag, In tag (get_tags (version a)) -> re_search Sample.pattern0 tag = false) ->
      parse_created_at (version a) = inr d ->
      (action a = keep <-> clock Sample.world0 - Sample.two_days * MICROS < us d) /\
      (clock Sample.world0 - Sample.two_days * MICROS < us d ->
       reason a = reason_newer (Sample.two_days * MICROS)) /\
      (us d <= clock Sample.world0 - Sample.two_days * MICROS ->
       action a = delete /\ reason a = reason_older (Sample.two_days * MICROS)).
Proof.
  assert (Hp : policy_ok Sample.world0 Sample.two_days Sample.archive_pattern
                 Sample.delta0 Sample.cutoff0 Sample.pattern0) by sample_policy.
  assert (Hu : utc_timestamps Sample.versions) by sample_utc.
  split; [exact Hp|]. split; [exact Hu|].
  exact (age_rule_is_strict Sample.versions Sample.two_days Sample.archive_pattern
           Sample.world0 Sample.delta0 Sample.cutoff0 Sample.pattern0 Hp Hu).
Defined.

(** The side conditions of C1 hold on the sample data. *)
Lemma orphan_kept_iff_correlated_witness :
  policy_ok Sample.world0 Sample.two_days Sample.archive_pattern
    Sample.delta0 Sample.cutoff0 Sample.pattern0 /\
  utc_timestamps Sample.versions /\
  NoDup (map id (tagged_group Sample.versions)) /\
  exists acts kept tagged_actions,
    find_versions_to_clean Sample.versions Sample.two_days Sample.archive_pattern false
      Sample.world0 = (inr acts, Sample.world0) /\
    process_tagged Sample.cutoff0 Sample.delta0 Sample.pattern0 Sample.archive_pattern
      (tagged_group Sample.versions) [] [] = inr (kept, tagged_actions) /\
    map fst kept = map (fun b => id (version b)) (filter is_kept_tagged acts) /\
    (forall v, In v (orphan_group Sample.versions) -> exists a, In a acts /\ version a = v) /\
    forall a, In a acts -> In (version a) (orphan_group Sample.versions) ->
      (action a = keep <->
       exists b, In b acts /\ is_kept_tagged b = true /\
                 within_tolerance (version a) (version b) = true) /\
      match find (fun b => is_kept_tagged b && within_tolerance (version a) (version b)) acts with
      | Some b => action a = keep /\ reason a = reason_correlated (id (version b))
      | None => action a = delete /\ reason a = reason_orphan
      end.
Proof.
  assert (Hp : policy_ok Sample.world0 Sample.two_days Sample.archive_pattern
                 Sample.delta0 Sample.cutoff0 Sample.pattern0) by sample_policy.
  assert (Hu : utc_timestamps Sample.versions) by sample_utc.
  assert (Hn : NoDup (map id (tagged_group Sample.versions))) by sample_nodup.
  split; [exact Hp|]. split; [exact Hu|]. split; [exact Hn|].
  exact (orphan_kept_iff_correlated Sample.versions Sample.two_days Sample.archive_pattern
           Sample.world0 Sample.delta0 Sample.cutoff0 Sample.pattern0 Hp Hu Hn).
Defined.

(** The side conditions of C5 hold on the sample data. *)
Lemma sole_git_commit_goes_the_orphan_way_witness :
  policy_ok Sample.world0 Sample.two_days Sample.archive_pattern
    Sample.delta0 Sample.cutoff0 Sample.pattern0 /\
  utc_timestamps Sample.versions /\
  (forall v, In v Sample.versions -> sole_git_commit_tag v ->
     In v (orphan_group Sample.versions) /\ ~ In v (tagged_group Sample.versions)) /\
  (forall v, In v Sample.versions -> get_tags v <> [] -> ~ sole_git_commit_tag v ->
     In v (tagged_group Sample.versions) /\ ~ In v (orphan_group Sample.versions)) /\
  exists acts kept tagged_actions,
    find_versions_to_clean Sample.versions Sample.two_days Sample.archive_pattern false
      Sample.world0 = (inr acts, Sample.world0) /\
    process_tagged Sample.cutoff0 Sample.delta0 Sample.pattern0 Sample.archive_pattern
      (tagged_group Sample.versions) [] [] = inr (kept, tagged_actions) /\
    forall v, In v Sample.versions -> sole_git_commit_tag v ->
      (exists a, In a acts /\ version a = v) /\
      forall a, In a acts -> version a = v ->
        classify_orphan kept v = inr a /\
        ((action a = delete /\ reason a = reason_orphan) \/
         (action a = keep /\ exists kept_id, reason a = reason_correlated kept_id)).
Proof.
  assert (Hp : policy_ok Sample.world0 Sample.two_days Sample.archive_pattern
                 Sample.delta0 Sample.cutoff0 Sample.pattern0) by sample_policy.
  assert (Hu : utc_timestamps Sample.versions) by sample_utc.
  split; [exact Hp|]. split; [exact Hu|].
  exact (sole_git_commit_goes_the_orphan_way Sample.versions Sample.two_days
           Sample.archive_pattern Sample.world0 Sample.delta0 Sample.cutoff0
           Sample.pattern0 Hp Hu).
Defined.

(** The side conditions of C6, as amended, hold on the sample data. *)
Lemma output_order_and_count_witness :
  policy_ok Sample.world0 Sample.two_days Sample.archive_pattern
    Sample.delta0 Sample.cutoff0 Sample.pattern0 /\
  utc_timestamps Sample.versions /\
  exists acts,
    find_versions_to_clean Sample.versions Sample.two_days Sample.archive_pattern false
      Sample.world0 = (inr acts, Sample.world0) /\
    map version acts = tagged_group Sample.versions ++ orphan_group Sample.versions /\
    Permutation (map version acts) Sample.versions /\
    List.length acts = List.length Sample.versions.
Proof.
  assert (Hp : policy_ok Sample.world0 Sample.two_days Sample.archive_pattern
                 Sample.delta0 Sample.cutoff0 Sample.pattern0) by sample_policy.
  assert (Hu : utc_timestamps Sample.versions) by sample_utc.
  split; [exact Hp|]. split; [exact Hu|].
  exact (output_order_and_count Sample.versions Sample.two_days Sample.archive_pattern
           false Sample.world0 Sample.delta0 Sample.cutoff0 Sample.pattern0
           (fun _ => conj Hp Hu)).
Defined.

(** C8 on two worlds that agree on the clock and differ in their log. *)
Lemma engine_is_pure_witness :
  clock Sample.world0 = clock Sample.world0_logged /\
  fst (find_versions_to_clean Sample.versions Sample.two_days Sample.archive_pattern false
         Sample.world0) =
  fst (find_versions_to_clean Sample.versions Sample.two_days Sample.archive_pattern false
         Sample.world0_logged).
Proof.
  split; [reflexivity|].
  exact (proj1 (engine_is_pure Sample.versions Sample.two_days Sample.archive_pattern
                  false Sample.world0 Sample.world0_logged eq_refl)).
Defined.

(** The side conditions of C10 hold on two sample inputs that share
    their tagged group. *)
Lemma orphans_never_feed_the_table_witness :
  policy_ok Sample.world0 Sample.two_days Sample.archive_pattern
    Sample.delta0 Sample.cutoff0 Sample.pattern0 /\
  utc_timestamps Sample.versions /\
  utc_timestamps Sample.versions_fewer /\
  tagged_group Sample.versions = tagged_group Sample.versions_fewer /\
  exists acts acts' kept tagged_actions,
    find_versions_to_clean Sample.versions Sample.two_days Sample.archive_pattern false
      Sample.world0 = (inr acts, Sample.world0) /\
    find_versions_to_clean Sample.versions_fewer Sample.two_days Sample.archive_pattern false
      Sample.world0 = (inr acts', Sample.world0) /\
    process_tagged Sample.cutoff0 Sample.delta0 Sample.pattern0 Sample.archive_pattern
      (tagged_group Sample.versions) [] [] = inr (kept, tagged_actions) /\
    (forall kept_id kept_timestamp, In (kept_id, kept_timestamp) kept ->
       exists b, In b acts /\ is_kept_tagged b = true /\
                 id (version b) = kept_id /\
                 parse_created_at (version b) = inr kept_timestamp) /\
    (forall a, In a acts -> In (version a) (orphan_group Sample.versions) ->
       classify_orphan kept (version a) = inr a) /\
    (forall a, In a acts -> In (version a) (orphan_group Sample.versions) ->
       action a = keep ->
       exists b, In b acts /\ is_kept_tagged b = true /\
                 within_tolerance (version a) (version b) = true) /\
    (forall a a', In a acts -> In a' acts' ->
       In (version a) (orphan_group Sample.versions) ->
       version a = version a' -> a = a').
Proof.
  assert (Hp : policy_ok Sample.world0 Sample.two_days Sample.archive_pattern
                 Sample.delta0 Sample.cutoff0 Sample.pattern0) by sample_policy.
  assert (Hu : utc_timestamps Sample.versions) by sample_utc.
  assert (Hu' : utc_timestamps Sample.versions_fewer) by sample_utc.
  assert (Hs : tagged_group Sample.versions = tagged_group Sample.versions_fewer)
    by (vm_compute; reflexivity).
  split; [exact Hp|]. split; [exact Hu|]. split; [exact Hu'|]. split; [exact Hs|].
  exact (orphans_never_feed_the_table Sample.versions Sample.versions_fewer Sample.two_days
           Sample.archive_pattern Sample.world0 Sample.delta0 Sample.cutoff0
           Sample.pattern0 Hp Hu Hu' Hs).
Defined.

(** The side conditions of C7, as amended, hold for the sample command
    line. *)
Lemma bad_pattern_surfaces_after_listing_witness :
  re_compile (keep_tags_pattern Sample.bad_args) = None /\
  all Sample.bad_args = None /\
  Sample.lister "user/test" "test-package" Sample.world1 =
    (inr Sample.versions, snd (Sample.lister "user/test" "test-package" Sample.world1)) /\
  exists e,
    cleanup_versions_command Sample.bad_args Sample.lister find_versions_to_clean
      Sample.remover Sample.world1 =
    (inl e, snd (Sample.lister "user/test" "test-package" Sample.world1)) /\
    (forall delta cutoff,
       timedelta_seconds (tagged_max_age Sample.bad_args) = inr delta ->
       datetime_minus
         (mkDatetime (clock (snd (Sample.lister "user/test" "test-package" Sample.world1)))
            true) delta = inr cutoff ->
       e = ReError).
Proof.
  assert (Hre : re_compile (keep_tags_pattern Sample.bad_args) = None) by reflexivity.
  assert (Hall : all Sample.bad_args = None) by reflexivity.
  assert (Hl : Sample.lister "user/test" "test-package" Sample.world1 =
               (inr Sample.versions,
                snd (Sample.lister "user/test" "test-package" Sample.world1)))
    by (vm_compute; reflexivity).
  split; [exact Hre|]. split; [exact Hall|]. split; [exact Hl|].
  exact (bad_pattern_surfaces_after_listing Sample.bad_args Sample.lister Sample.remover
           Sample.world1 _ Sample.versions Hre Hall Hl).
Defined.

(** C6 as first stated fails: with [remove_all] the actions come in
    the order of the input, an orphan before a tagged version when the
    input has them so, and that is not the tagged group followed by
    the potential-orphan group. *)
Lemma remove_all_keeps_input_order :
  exists acts,
    find_versions_to_clean [Sample.orphan_amd64; Sample.manifest_list] Sample.two_days
      Sample.archive_pattern true Sample.world0 = (inr acts, Sample.world0) /\
    map version acts = [Sample.orphan_amd64; Sample.manifest_list] /\
    tagged_group [Sample.orphan_amd64; Sample.manifest_list]
      ++ orphan_group [Sample.orphan_amd64; Sample.manifest_list]
      = [Sample.manifest_list; Sample.orphan_amd64] /\
    map version acts <>
      tagged_group [Sample.orphan_amd64; Sample.manifest_list]
      ++ orphan_group [Sample.orphan_amd64; Sample.manifest_list].
Proof.
  eexists. split; [vm_compute; reflexivity|].
  split; [reflexivity|]. split; [reflexivity|].
  vm_compute. intros H. inversion H.
Qed.

(** C7 as first stated fails: on a command line with a pattern that
    does not compile the command ends with [re.error], and by then
    the listing request has been sent. *)
Lemma bad_pattern_found_after_the_request :
  re_compile (keep_tags_pattern Sample.bad_args) = None /\
  sent Sample.world1 = [] /\
  fst (cleanup_versions_command Sample.bad_args Sample.lister find_versions_to_clean
         Sample.remover Sample.world1) = inl ReError /\
  sent (snd (cleanup_versions_command Sample.bad_args Sample.lister find_versions_to_clean
               Sample.remover Sample.world1)) =
  [ {| method := "GET";
       req_url := "https://api.github.com/user/test/packages/container/test-package/versions?per_page=100";
       req_headers := api_headers "test-token" |} ].
Proof.
  split; [reflexivity|]. split; [reflexivity|].
  split; vm_compute; reflexivity.
Qed.

(** ** Scenarios, run on the model *)

(** The correlation scenario of the test suite, with an archived and a
    stale version added; [stale] was created at the cutoff instant
    itself. *)
Example correlation_scenario :
  Sample.summary
    (find_versions_to_clean Sample.versions Sample.two_days Sample.archive_pattern false
       Sample.world0) =
  [ (1001, keep, "Tagged version newer than '2 days, 0:00:00'");
    (1002, keep, "Tagged version matches keep pattern '^archive-'");
    (1003, delete, "Tagged version older than '2 days, 0:00:00'");
    (2001, keep, "Untagged version matches timestamp of kept version 1001");
    (2002, keep, "Untagged version matches timestamp of kept version 1001");
    (3001, delete, "Orphan version");
    (3002, delete, "Orphan version") ].
Proof. vm_compute. reflexivity. Qed.

(** Ten seconds on either side still correlate, eleven do not. *)
Example tolerance_boundary :
  Sample.summary
    (find_versions_to_clean
       [ Sample.mk 1 "2024-06-09T12:00:30Z" ["latest"];
         Sample.mk 2 "2024-06-09T12:00:40Z" [];
         Sample.mk 3 "2024-06-09T12:00:41Z" [];
         Sample.mk 4 "2024-06-09T12:00:20Z" [];
         Sample.mk 5 "2024-06-09T12:00:19Z" [] ]
       Sample.two_days Sample.archive_pattern false Sample.world0) =
  [ (1, keep, "Tagged version newer than '2 days, 0:00:00'");
    (2, keep, "Untagged version matches timestamp of kept version 1");
    (3, delete, "Orphan version");
    (4, keep, "Untagged version matches timestamp of kept version 1");
    (5, delete, "Orphan version") ].
Proof. vm_compute. reflexivity. Qed.

(** An orphan kept by correlation does not keep the next orphan. *)
Example no_keep_through_an_orphan :
  Sample.summary
    (find_versions_to_clean
       [ Sample.mk 1 "2024-06-09T12:00:00Z" ["latest"];
         Sample.mk 2 "2024-06-09T12:00:08Z" [];
         Sample.mk 3 "2024-06-09T12:00:16Z" [] ]
       Sample.two_days Sample.archive_pattern false Sample.world0) =
  [ (1, keep, "Tagged version newer than '2 days, 0:00:00'");
    (2, keep, "Untagged version matches timestamp of kept version 1");
    (3, delete, "Orphan version") ].
Proof. vm_compute. reflexivity. Qed.

(** The cited version is the first one recorded, not the closest. *)
Example first_match_is_cited :
  Sample.summary
    (find_versions_to_clean
       [ Sample.mk 1 "2024-06-09T12:00:00Z" ["latest"];
         Sample.mk 2 "2024-06-09T12:00:09Z" ["edge"];
         Sample.mk 3 "2024-06-09T12:00:09Z" [] ]
       Sample.two_days Sample.archive_pattern false Sample.world0) =
  [ (1, keep, "Tagged version newer than '2 days, 0:00:00'");
    (2, keep, "Tagged version newer than '2 days, 0:00:00'");
    (3, keep, "Untagged version matches timestamp of kept version 1") ].
Proof. vm_compute. reflexivity. Qed.

(** Why the correlation theorem asks for unique ids: a second kept
    version with the id of the first takes over its entry in the
    table, and an orphan next to the first is no longer found. *)
Example shared_id_overwrites_the_entry :
  Sample.summary
    (find_versions_to_clean
       [ Sample.mk 7 "2024-06-09T12:00:00Z" ["latest"];
         Sample.mk 7 "2024-06-09T13:00:00Z" ["edge"];
         Sample.mk 8 "2024-06-09T12:00:01Z" [] ]
       Sample.two_days Sample.archive_pattern false Sample.world0) =
  [ (7, keep, "Tagged version newer than '2 days, 0:00:00'");
    (7, keep, "Tagged version newer than '2 days, 0:00:00'");
    (8, delete, "Orphan version") ].
Proof. vm_compute. reflexivity. Qed.

(** With [remove_all] neither the pattern nor the timestamps are
    looked at. *)
Example remove_all_reads_nothing :
  Sample.summary
    (find_versions_to_clean
       [ Sample.mk 1 "not a timestamp" ["archive-1"]; Sample.mk 2 "" [] ]
       Sample.two_days "(" true Sample.world0) =
  [ (1, delete, "Marked for deletion by --all=yes-remove-all flag");
    (2, delete, "Marked for deletion by --all=yes-remove-all flag") ].
Proof. vm_compute. reflexivity. Qed.

(** What the side conditions exclude: a malformed timestamp, an
    offset-naive one compared with the cutoff, an age whose cutoff
    falls before year 1. *)
Example malformed_timestamp_raises :
  fst (find_versions_to_clean [Sample.mk 1 "yesterday" ["latest"]]
         Sample.two_days Sample.archive_pattern false Sample.world0) = inl ValueError.
Proof. vm_compute. reflexivity. Qed.

Example naive_timestamp_raises :
  fst (find_versions_to_clean [Sample.mk 1 "2024-06-09T12:00:00" ["latest"]]
         Sample.two_days Sample.archive_pattern false Sample.world0) = inl TypeError.
Proof. vm_compute. reflexivity. Qed.

Example unrepresentable_cutoff_raises :
  fst (find_versions_to_clean Sample.versions 1000000000000
         Sample.archive_pattern false Sample.world0) = inl OverflowError.
Proof. vm_compute. reflexivity. Qed.

(** A dry run of the whole command sends the listing request and no
    other. *)
Example dry_run_of_the_command :
  let args := {| namespace := "user/test"; package := "test-package";
                 tagged_max_age := Sample.two_days; really_remove := false;
                 keep_tags_pattern := Sample.archive_pattern; all := None |} in
  let r := cleanup_versions_command args Sample.lister find_versions_to_clean
             Sample.remover Sample.world1 in
  fst r = inr tt /\ map method (sent (snd r)) = ["GET"].
Proof. vm_compute. split; reflexivity. Qed.

(** The pagination scenario: a Link header naming a next page. *)
Example next_page_from_link_header :
  next_page_of
    ("<https://api.github.com/user/test/packages/container/test-package/versions?page=2&per_page=100>; "
     ++ rel_next ++
     ", <https://api.github.com/user/test/packages/container/test-package/versions?page=199&per_page=100>; rel=last")%string
  = Some "https://api.github.com/user/test/packages/container/test-package/versions?page=2&per_page=100".
Proof. vm_compute. reflexivity. Qed.

(** A live removal, for contrast with the dry run: the provider is
    asked once and one DELETE request goes out. *)
Example live_removal_asks_and_sends :
  let r := Sample.remover "user/test" "test-package" 1234 false Sample.world1 in
  fst r = inr true /\ token_calls (snd r) = 1%nat /\
  map (fun q => (method q, req_url q)) (sent (snd r)) =
  [("DELETE",
    "https://api.github.com/user/test/packages/container/test-package/versions/1234")].
Proof. vm_compute. repeat split; reflexivity. Qed.

Example dry_removal_asks_nothing :
  let r := Sample.remover "user/test" "test-package" 1234 true Sample.world1 in
  fst r = inr true /\ token_calls (snd r) = 0%nat /\ sent (snd r) = [] /\
  logged (snd r) = ["INFO: [DRY RUN] Would remove version 1234 of user/test/test-package"].
Proof. vm_compute. repeat split; reflexivity. Qed.

(** * More about the engine *)

Section EngineInversion.
Context {rt : PyRuntime}.

Lemma classify_tagged_inv cutoff delta p pat v d act rsn :
  classify_tagged cutoff delta p pat v = inr (d, act, rsn) ->
  parse_created_at v = inr d /\
  ((should_keep_due_to_pattern p v = true /\ act = keep /\ rsn = reason_pattern pat) \/
   (should_keep_due_to_pattern p v = false /\ datetime_gt d cutoff = inr true /\
    act = keep /\ rsn = reason_newer delta) \/
   (should_keep_due_to_pattern p v = false /\ datetime_gt d cutoff = inr false /\
    act = delete /\ rsn = reason_older delta)).
Proof.
  unfold classify_tagged.
  destruct (parse_created_at v) as [e|d0]; simpl; [discriminate|].
  destruct (should_keep_due_to_pattern p v).
  - intros H. inversion H; subst. split; [reflexivity|]. left. auto.
  - destruct (datetime_gt d0 cutoff) as [e|[|]] eqn:Eg; simpl; [discriminate| |];
      intros H; inversion H; subst; split; auto; [right; left | right; right]; auto.
Qed.


(** What a successful run of the tagged loop adds: one action per
    version, in order, each as [classify_tagged] decides; and the
    kept table gains only entries of versions whose action is keep. *)
Lemma process_tagged_inv cutoff delta p pat versions : forall kept acts kept' acts',
  process_tagged cutoff delta p pat versions kept acts = inr (kept', acts') ->
  exists new,
    acts' = acts ++ new /\
    map version new = versions /\
    (forall a, In a new ->
       exists d, classify_tagged cutoff delta p pat (version a) =
                 inr (d, action a, reason a)) /\
    (forall e, In e kept' ->
       In e kept \/
       exists a, In a new /\ action a = keep /\ fst e = id (version a) /\
                 parse_created_at (version a) = inr (snd e)).
Proof.
  induction versions as [|v rest IH]; intros kept acts kept' acts'; simpl.
  - intros H. inversion H; subst. exists []. rewrite app_nil_r.
    repeat split; auto. intros a [].
  - destruct (classify_tagged cutoff delta p pat v) as [e|[[d act] rsn]] eqn:Ec;
      simpl; [discriminate|].
    intros H. apply IH in H as (new & Hacts & Hmap & Hcls & Hkept).
    exists (mkCleanupAction v act rsn :: new). split; [|split; [|split]].
    + rewrite Hacts, <- app_assoc. reflexivity.
    + simpl. now rewrite Hmap.
    + intros a [<-|Ha]; [simpl; eauto | auto].
    + intros e He. destruct (Hkept e He) as [Hin|(a & Ha & Hk & Hid & Hp)].
      * destruct act; [|auto].
        destruct (dict_set_In _ _ _ _ Hin) as [->|Hin']; [|auto].
        right. exists (mkCleanupAction v keep rsn). simpl.
        apply classify_tagged_inv in Ec as [Hp _]. auto.
      * right. exists a. simpl. auto.
Qed.


Lemma find_kept_match_inv d tol kept : forall k,
  find_kept_match d tol kept = inr (Some k) ->
  exists t, In (k, t) kept /\ Z.abs (us d - us t) <= tol.
Proof.
  induction kept as [|[k0 t0] kept IH]; intros k; simpl; [discriminate|].
  destruct (datetime_diff d t0) as [e|x] eqn:Ed; simpl; [discriminate|].
  destruct (Z.leb_spec (Z.abs x) tol) as [Hle|Hgt].
  - intros H. inversion H; subst. exists t0. split; [now left|].
    unfold datetime_diff in Ed. destruct (Bool.eqb _ _); inversion Ed. now subst.
  - intros H. destruct (IH _ H) as (t & Hin & Hle). exists t. split; [now right | auto].
Qed.


Lemma classify_orphan_inv kept v a :
  classify_orphan kept v = inr a ->
  version a = v /\
  exists d, parse_created_at v = inr d /\
    ((action a = keep /\
      exists k t, In (k, t) kept /\ reason a = reason_correlated k /\
                  Z.abs (us d - us t) <= timestamp_tolerance_seconds * MICROS) \/
     (action a = delete /\ reason a = reason_orphan /\
      find_kept_match d (timestamp_tolerance_seconds * MICROS) kept = inr None)).
Proof.
  unfold classify_orphan.
  destruct (parse_created_at v) as [e|d]; cbn [rbind]; [discriminate|].
  rewrite tolerance_value. cbn [rbind].
  destruct (find_kept_match d _ kept) as [e|[k|]] eqn:Ef; cbn [rbind]; [discriminate| |];
    intros H; inversion H; subst; simpl; split; auto; exists d; split; auto.
  left. split; [reflexivity|].
  apply find_kept_match_inv in Ef as (t & Hin & Hle). eauto.
Qed.


Lemma process_orphans_inv kept versions : forall acts acts',
  process_orphans kept versions acts = inr acts' ->
  exists new,
    acts' = acts ++ new /\
    map version new = versions /\
    (forall a, In a new -> classify_orphan kept (version a) = inr a).
Proof.
  induction versions as [|v rest IH]; intros acts acts'; simpl.
  - intros H. inversion H; subst. exists []. rewrite app_nil_r.
    repeat split; auto. intros a [].
  - destruct (classify_orphan kept v) as [e|a0] eqn:Ec; simpl; [discriminate|].
    intros H. apply IH in H as (new & Hacts & Hmap & Hcls).
    pose proof (classify_orphan_inv _ _ _ Ec) as [Hv _].
    exists (a0 :: new). split; [|split].
    + rewrite Hacts, <- app_assoc. reflexivity.
    + simpl. now rewrite Hmap, Hv.
    + intros a [<-|Ha]; [now rewrite Hv | auto].
Qed.


(** Every way the engine can return without [remove_all]. *)
Lemma find_versions_inv versions age pat w w' acts :
  find_versions_to_clean versions age pat false w = (inr acts, w') ->
  w' = w /\
  exists delta cutoff p kept tagged_actions orphan_actions,
    policy_ok w age pat delta cutoff p /\
    process_tagged cutoff delta p pat (tagged_group versions) [] [] =
      inr (kept, tagged_actions) /\
    process_orphans kept (orphan_group versions) tagged_actions = inr acts /\
    acts = tagged_actions ++ orphan_actions /\
    map version tagged_actions = tagged_group versions /\
    map version orphan_actions = orphan_group versions /\
    (forall a, In a tagged_actions ->
       exists d, classify_tagged cutoff delta p pat (version a) =
                 inr (d, action a, reason a)) /\
    (forall a, In a orphan_actions -> classify_orphan kept (version a) = inr a) /\
    (forall e, In e kept ->
       exists a, In a tagged_actions /\ action a = keep /\ fst e = id (version a) /\
                 parse_created_at (version a) = inr (snd e)).
Proof.
  unfold find_versions_to_clean, tagged_group, orphan_group.
  destruct (separate versions [] []) as [tagged orphans]. simpl.
  unfold bind, lift, datetime_now.
  destruct (timedelta_seconds age) as [e|delta] eqn:Ed; [discriminate|].
  destruct (datetime_minus _ delta) as [e|cutoff] eqn:Ec; [discriminate|].
  destruct (re_compile pat) as [p|] eqn:Ep; [|discriminate].
  destruct (process_tagged cutoff delta p pat tagged [] []) as [e|[kept ta]] eqn:Et;
    [discriminate|].
  destruct (process_orphans kept orphans ta) as [e|acts0] eqn:Eo; [discriminate|].
  intros H. inversion H; subst. split; [reflexivity|].
  pose proof (process_tagged_inv _ _ _ _ _ _ _ _ _ Et) as (new & Hn & Hmap & Hcls & Hk).
  simpl in Hn. subst ta.
  pose proof (process_orphans_inv _ _ _ _ Eo) as (onew & Hon & Homap & Hocls).
  exists delta, cutoff, p, kept, new, onew.
  repeat split; auto.
  intros e He. destruct (Hk e He) as [[]|H']; exact H'.
Qed.

Lemma action_eq (a b : CleanupAction) :
  version a = version b -> action a = action b -> reason a = reason b -> a = b.
Proof. destruct a, b; simpl; intros; subst; reflexivity. Qed.

Lemma groups_cover versions v :
  In v versions -> In v (tagged_group versions) \/ In v (orphan_group versions).
Proof.
  intros H. rewrite tagged_group_In, orphan_group_In.
  destruct (has_real_tags v); auto.
Qed.

Lemma groups_length versions :
  List.length (tagged_group versions ++ orphan_group versions) = List.length versions.
Proof.
  apply Permutation_length.
  rewrite tagged_group_filter, orphan_group_filter. apply partition_permutation.
Qed.

(** X1.  Whenever the engine returns actions, with no assumption on
    the input: the world is as before; the actions are those of the
    tagged group followed by those of the potential-orphan group
    (those of the input in its own order under [remove_all]), one per
    input version; and without [remove_all] the pattern compiled, the
    cutoff was representable and every [created_at] parsed. *)
Theorem engine_returns_only_on_sound_input versions age pat remove_all w w' acts :
  find_versions_to_clean versions age pat remove_all w = (inr acts, w') ->
  w' = w /\
  map version acts =
    (if remove_all then versions else tagged_group versions ++ orphan_group versions) /\
  List.length acts = List.length versions /\
  (remove_all = false ->
   (exists delta cutoff p, policy_ok w age pat delta cutoff p) /\
   forall v, In v versions -> exists d, parse_created_at v = inr d).
Proof.
  destruct remove_all.
  - destruct (remove_all_marks_everything_aux versions age pat w) as (acts0 & E & Hv).
    rewrite E. intros H.
    assert (acts = acts0 /\ w' = w) as [-> ->] by (inversion H; auto).
    split; [reflexivity|]. split; [exact Hv|]. split; [|discriminate].
    rewrite <- Hv. now rewrite length_map.
  - intros H. apply find_versions_inv in H
      as (-> & delta & cutoff & p & kept & ta & oa & Hpol & _ & _ & -> & Ht & Ho & Hct & Hco & _).
    split; [reflexivity|]. split; [now rewrite map_app, Ht, Ho|]. split.
    + rewrite <- groups_length, <- Ht, <- Ho, <- map_app. now rewrite length_map.
    + intros _. split; [eauto|]. intros v Hv.
      destruct (groups_cover _ _ Hv) as [Hin|Hin].
      * rewrite <- Ht in Hin. apply in_map_iff in Hin as (a & <- & Ha).
        destruct (Hct a Ha) as (d & Hc). apply classify_tagged_inv in Hc as [Hp _]. eauto.
      * rewrite <- Ho in Hin. apply in_map_iff in Hin as (a & <- & Ha).
        pose proof (Hco a Ha) as Hc.
        apply classify_orphan_inv in Hc as (_ & d & Hp & _). eauto.
Qed.


(** X3.  What the engine decides for a version of the tagged group
    depends on that version and the policy alone: two runs at the same
    instant give it the same action and reason, whatever else their
    inputs hold. *)
Theorem tagged_decision_is_local versions versions' age pat w acts acts' a a' :
  find_versions_to_clean versions age pat false w = (inr acts, w) ->
  find_versions_to_clean versions' age pat false w = (inr acts', w) ->
  In a acts -> In a' acts' ->
  version a = version a' ->
  has_real_tags (version a) = true ->
  a = a'.
Proof.
  intros H H' Ha Ha' Hv Ht.
  apply find_versions_inv in H
    as (_ & delta & cutoff & p & kept & ta & oa & Hpol & _ & _ & -> & _ & Ho & Hct & _).
  apply find_versions_inv in H'
    as (_ & delta' & cutoff' & p' & kept' & ta' & oa' & Hpol' & _ & _ & -> & _ & Ho' & Hct' & _).
  destruct Hpol as (Hd & Hc & Hp), Hpol' as (Hd' & Hc' & Hp').
  rewrite Hd in Hd'. inversion Hd'; subst delta'.
  rewrite Hc in Hc'. inversion Hc'; subst cutoff'.
  rewrite Hp in Hp'. inversion Hp'; subst p'.
  assert (Hin : forall (l : list CleanupAction) vs x,
            map version l = orphan_group vs -> In x l ->
            has_real_tags (version x) = true -> False).
  { intros l vs x Hm Hx Hx'.
    assert (Hg : In (version x) (orphan_group vs))
      by (rewrite <- Hm; apply in_map; exact Hx).
    apply orphan_group_In in Hg as [_ Hg]. congruence. }
  apply in_app_or in Ha as [Ha|Ha]; [|exfalso; eauto].
  apply in_app_or in Ha' as [Ha'|Ha']; [|exfalso; rewrite Hv in Ht; eauto].
  destruct (Hct a Ha) as (d & Hc1), (Hct' a' Ha') as (d' & Hc2).
  rewrite Hv, Hc2 in Hc1. inversion Hc1.
  apply action_eq; auto.
Qed.

(** X4.  When no version of the tagged group is kept, in particular
    when there is none, every action is [delete], and every
    potential orphan is deleted as an orphan. *)
Theorem nothing_kept_without_a_kept_tagged versions age pat w acts :
  find_versions_to_clean versions age pat false w = (inr acts, w) ->
  (forall a, In a acts -> In (version a) (tagged_group versions) -> action a = delete) ->
  forall a, In a acts ->
    action a = delete /\
    (In (version a) (orphan_group versions) -> reason a = reason_orphan).
Proof.
  intros H Hnone a Ha.
  apply find_versions_inv in H
    as (_ & delta & cutoff & p & kept & ta & oa & _ & _ & _ & -> & Ht & Ho & _ & Hco & Hk).
  assert (Hempty : forall e, ~ In e kept).
  { intros e He. destruct (Hk e He) as (b & Hb & Hkeep & _).
    assert (Hdel : action b = delete).
    { apply Hnone; [apply in_or_app; now left|].
      rewrite <- Ht. now apply in_map. }
    congruence. }
  assert (Horph : forall x, In x oa -> action x = delete /\ reason x = reason_orphan).
  { intros x Hx. pose proof (Hco x Hx) as Hc.
    apply classify_orphan_inv in Hc as (_ & d & _ & [(_ & k & t & Hin & _)|(Hd & Hr & _)]).
    - exfalso. eapply Hempty, Hin.
    - auto. }
  apply in_app_or in Ha as [Ha|Ha].
  - split.
    + apply Hnone; [apply in_or_app; now left|]. rewrite <- Ht. now apply in_map.
    + intros Hog. exfalso.
      assert (Htg : In (version a) (tagged_group versions))
        by (rewrite <- Ht; now apply in_map).
      apply tagged_group_In in Htg as [_ Htg].
      apply orphan_group_In in Hog as [_ Hog]. congruence.
  - destruct (Horph a Ha). auto.
Qed.

End EngineInversion.

Section EngineMonotone.
Context {rt : PyRuntime}.

Lemma decide_tagged_monotone cutoff cutoff' delta delta' p pat v :
  us cutoff' <= us cutoff ->
  action (decide_tagged cutoff delta p pat v) = keep ->
  action (decide_tagged cutoff' delta' p pat v) = keep.
Proof.
  intros Hle. unfold decide_tagged.
  destruct (should_keep_due_to_pattern p v); [auto|].
  destruct (Z.ltb_spec (us cutoff) (us (created_of v))) as [Hlt|Hge]; simpl.
  - intros _. destruct (Z.ltb_spec (us cutoff') (us (created_of v))); [reflexivity | lia].
  - discriminate.
Qed.

Lemma kept_table_closed cutoff delta p pat versions :
  NoDup (map id (tagged_group versions)) ->
  fold_left record_kept
    (map (decide_tagged cutoff delta p pat) (tagged_group versions)) [] =
  map kept_entry
    (filter says_keep (map (decide_tagged cutoff delta p pat) (tagged_group versions))).
Proof.
  intros Hnd. rewrite kept_unique_ids; [reflexivity|].
  simpl. rewrite map_map.
  erewrite map_ext; [|intros v; rewrite decide_tagged_version; reflexivity].
  exact Hnd.
Qed.

(** X5.  A longer maximum age never deletes more: on well-formed
    input with distinct tagged ids, a version that is kept under
    [age] is kept under every [age' >= age] at the same instant, be
    it tagged or a potential orphan. *)
Theorem longer_max_age_keeps_more versions age age' pat w delta cutoff delta' cutoff' p :
  age <= age' ->
  policy_ok w age pat delta cutoff p ->
  policy_ok w age' pat delta' cutoff' p ->
  utc_timestamps versions ->
  NoDup (map id (tagged_group versions)) ->
  exists acts acts',
    find_versions_to_clean versions age pat false w = (inr acts, w) /\
    find_versions_to_clean versions age' pat false w = (inr acts', w) /\
    forall a a', In a acts -> In a' acts' -> version a = version a' ->
      action a = keep -> action a' = keep.
Proof.
  intros Hage Hpol Hpol' Hu Hnd.
  do 2 eexists.
  split; [apply find_versions_closed; eassumption|].
  split; [apply find_versions_closed; eassumption|].
  assert (Hle : us cutoff' <= us cutoff).
  { destruct Hpol as (Hd & Hc & _), Hpol' as (Hd' & Hc' & _).
    apply timedelta_seconds_value in Hd, Hd'.
    apply datetime_minus_value in Hc as [Hc _], Hc' as [Hc' _].
    simpl in Hc, Hc'. unfold MICROS in *. lia. }
  intros a a' Ha Ha' Hv Hkeep.
  apply engine_closed_In in Ha as [(Ht & E)|(Ho & E)];
    apply engine_closed_In in Ha' as [(Ht' & E')|(Ho' & E')].
  - rewrite E'. rewrite <- Hv.
    eapply decide_tagged_monotone; [exact Hle|]. rewrite <- E. exact Hkeep.
  - rewrite <- Hv in Ho'. apply tagged_group_In in Ht as [_ Ht].
    apply orphan_group_In in Ho' as [_ Ho']. congruence.
  - rewrite <- Hv in Ht'. apply tagged_group_In in Ht' as [_ Ht'].
    apply orphan_group_In in Ho as [_ Ho]. congruence.
  - rewrite kept_table_closed in E, E' by assumption.
    rewrite <- Hv in E'. unfold decide_orphan in E, E'.
    destruct (find _ _) as [[k t]|] eqn:Ef in E; [|rewrite E in Hkeep; discriminate].
    apply find_some in Ef as [Hin Hnear].
    apply in_map_iff in Hin as (b & Hb & Hbin).
    apply filter_In in Hbin as [Hbin Hbk].
    apply in_map_iff in Hbin as (v & <- & Hvin).
    destruct (find _ _) as [[k' t']|] eqn:Ef' in E'; [rewrite E'; reflexivity|].
    exfalso.
    pose proof (find_none _ _ Ef' (kept_entry (decide_tagged cutoff' delta' p pat v))) as Hn.
    assert (Hk' : kept_entry (decide_tagged cutoff' delta' p pat v) = (k, t)).
    { rewrite <- Hb. unfold kept_entry. now rewrite !decide_tagged_version. }
    rewrite Hk', Hnear in Hn. discriminate Hn.
    rewrite <- Hk'. apply in_map, filter_In. split; [now apply in_map|].
    unfold says_keep in *.
    rewrite (decide_tagged_monotone cutoff cutoff' delta delta' p pat v Hle); [reflexivity|].
    destruct (action (decide_tagged cutoff delta p pat v)); [reflexivity | discriminate].
Qed.

End EngineMonotone.

(** * The token provider *)

Lemma truthy_nonempty x t :
  GitHubTokenProvider.truthy x = Some t -> x = Some t /\ t <> EmptyString.
Proof.
  destruct x as [[|c s]|]; simpl; intros H; inversion H; subst.
  split; [reflexivity | discriminate].
Qed.

Lemma truthy_of_nonempty t :
  t <> EmptyString -> GitHubTokenProvider.truthy (Some t) = Some t.
Proof. destruct t; [congruence | reflexivity]. Qed.

(** X6.  [get_token] succeeds in exactly three ways, tried in this
    order: a usable cached token is returned and nothing is touched;
    else a non-empty [GITHUB_TOKEN] of the environment is returned
    and cached, and [gh] is not run; else [gh] is run once, and when
    it completes with return code 0 its output, stripped and not
    empty, is returned and cached. *)
Theorem get_token_resolution_order _token o token _token' o' :
  GitHubTokenProvider.get_token _token o = (inr token, _token', o') <->
  (GitHubTokenProvider.truthy _token = Some token /\ _token' = _token /\ o' = o) \/
  (GitHubTokenProvider.truthy _token = None /\
   GitHubTokenProvider.truthy
     (GitHubTokenProvider.environ_get (GitHubTokenProvider.environ o) "GITHUB_TOKEN")
     = Some token /\
   _token' = Some token /\ o' = o) \/
  (GitHubTokenProvider.truthy _token = None /\
   GitHubTokenProvider.truthy
     (GitHubTokenProvider.environ_get (GitHubTokenProvider.environ o) "GITHUB_TOKEN")
     = None /\
   exists stdout,
     GitHubTokenProvider.gh_auth_token o = GitHubTokenProvider.Completed 0 stdout /\
     token = str_strip stdout /\ token <> EmptyString /\
     _token' = Some token /\
     o' = GitHubTokenProvider.mkOutside (GitHubTokenProvider.environ o)
            (GitHubTokenProvider.gh_auth_token o) (S (GitHubTokenProvider.runs o))).
Proof.
  unfold GitHubTokenProvider.get_token.
  destruct (GitHubTokenProvider.truthy _token) as [cached|] eqn:Hc.
  { split.
    - intros H. inversion H; subst. left. auto.
    - intros [(H & -> & ->)|[(H & _)|(H & _)]]; try discriminate.
      inversion H; subst. reflexivity. }
  destruct (GitHubTokenProvider.truthy (GitHubTokenProvider.environ_get _ _))
    as [t|] eqn:He.
  { split.
    - intros H. inversion H; subst. right. left. auto.
    - intros [(H & _)|[(_ & H & -> & ->)|(_ & H & _)]]; try discriminate.
      inversion H; subst. reflexivity. }
  unfold GitHubTokenProvider.subprocess_run.
  destruct (GitHubTokenProvider.gh_auth_token o) as [rc out| |e] eqn:Hg.
  - destruct (Z.eqb_spec rc 0) as [->|Hrc].
    + destruct (str_strip out) as [|c s] eqn:Hs; cbn [GitHubTokenProvider.truthy].
      * split; [discriminate|].
        intros [(H & _)|[(_ & H & _)|(_ & _ & so & Ho & -> & Hne & _)]];
          try discriminate.
        inversion Ho; subst so. congruence.
      * split.
        -- intros H. inversion H; subst. right. right.
           repeat split; auto. exists out. rewrite Hs.
           repeat split; auto. discriminate.
        -- intros [(H & _)|[(_ & H & _)|(_ & _ & so & Ho & -> & Hne & -> & ->)]];
             try discriminate.
           inversion Ho; subst so. rewrite Hs. reflexivity.
    + split; [discriminate|].
      intros [(H & _)|[(_ & H & _)|(_ & _ & so & Ho & _)]]; try discriminate.
      inversion Ho; congruence.
  - split; [discriminate|].
    intros [(H & _)|[(_ & H & _)|(_ & _ & so & Ho & _)]]; discriminate.
  - split; [discriminate|].
    intros [(H & _)|[(_ & H & _)|(_ & _ & so & Ho & _)]]; discriminate.
Qed.

(** X7.  A token once returned is remembered and never empty: after
    a successful [get_token], every later [get_token] returns the same
    token without looking at the environment or running [gh], however
    these have changed in between. *)
Theorem token_is_memoized _token o token _token' o' :
  GitHubTokenProvider.get_token _token o = (inr token, _token', o') ->
  token <> EmptyString /\
  forall o2, GitHubTokenProvider.get_token _token' o2 = (inr token, _token', o2).
Proof.
  unfold GitHubTokenProvider.get_token at 1.
  assert (Hagain : forall c t, GitHubTokenProvider.truthy c = Some t ->
            forall o2, GitHubTokenProvider.get_token c o2 = (inr t, c, o2)).
  { intros c t Hc o2. unfold GitHubTokenProvider.get_token. now rewrite Hc. }
  destruct (GitHubTokenProvider.truthy _token) as [cached|] eqn:Hc.
  { intros H. inversion H; subst.
    split; [apply (truthy_nonempty _ _ Hc) | eauto]. }
  destruct (GitHubTokenProvider.truthy (GitHubTokenProvider.environ_get _ _))
    as [t|] eqn:He.
  { intros H. inversion H; subst.
    destruct (truthy_nonempty _ _ He) as [_ Hne].
    split; [exact Hne|]. apply Hagain, truthy_of_nonempty, Hne. }
  simpl. destruct (GitHubTokenProvider.gh_auth_token o) as [rc out| |e]; try discriminate.
  destruct (rc =? 0); [|simpl; discriminate].
  destruct (str_strip out) as [|c s] eqn:Hs; [simpl; discriminate|].
  intros H. inversion H; subst.
  split; [discriminate|]. apply Hagain. reflexivity.
Qed.

(** X8.  [get_token] fails exactly when the cache and the environment
    hold nothing usable and [gh] does not deliver: it is missing, it
    raises, it ends with a non-zero code, or its output is all
    whitespace.  The failure is [AuthenticationError] unless [gh]
    raised something else, and the cache is left as it was. *)
Theorem get_token_fails_exactly_when _token o :
  (exists e c' o', GitHubTokenProvider.get_token _token o = (inl e, c', o')) <->
  (GitHubTokenProvider.truthy _token = None /\
   GitHubTokenProvider.truthy
     (GitHubTokenProvider.environ_get (GitHubTokenProvider.environ o) "GITHUB_TOKEN") = None /\
   match GitHubTokenProvider.gh_auth_token o with
   | GitHubTokenProvider.Completed returncode stdout =>
       returncode <> 0 \/ str_strip stdout = EmptyString
   | _ => True
   end).
Proof.
  unfold GitHubTokenProvider.get_token.
  destruct (GitHubTokenProvider.truthy _token) as [cached|] eqn:Hc.
  { split; [intros (e & c' & o' & H); discriminate | intros (H & _); discriminate]. }
  destruct (GitHubTokenProvider.truthy (GitHubTokenProvider.environ_get _ _))
    as [t|] eqn:He.
  { split; [intros (e & c' & o' & H); discriminate | intros (_ & H & _); discriminate]. }
  simpl. destruct (GitHubTokenProvider.gh_auth_token o) as [rc out| |e].
  - destruct (Z.eqb_spec rc 0) as [->|Hrc].
    + destruct (str_strip out) as [|c s] eqn:Hs; simpl.
      * split; [auto | intros _; eauto].
      * split; [intros (e & c' & o' & H); discriminate|].
        intros (_ & _ & [H|H]); [congruence | discriminate].
    + split; [auto | intros _; eauto].
  - split; [auto | intros _; eauto].
  - split; [auto | intros _; eauto].
Qed.

Lemma get_token_failure_kind _token o e c' o' :
  GitHubTokenProvider.get_token _token o = (inl e, c', o') ->
  c' = _token /\
  (e = AuthenticationError \/
   GitHubTokenProvider.gh_auth_token o = GitHubTokenProvider.Raised e).
Proof.
  unfold GitHubTokenProvider.get_token.
  destruct (GitHubTokenProvider.truthy _token); [discriminate|].
  destruct (GitHubTokenProvider.truthy (GitHubTokenProvider.environ_get _ _));
    [discriminate|].
  simpl. destruct (GitHubTokenProvider.gh_auth_token o) as [rc out| |e0].
  - destruct (if rc =? 0 then _ else _); [discriminate|].
    intros H; inversion H; auto.
  - intros H; inversion H; auto.
  - intros H; inversion H; auto.
Qed.

(** * The lister *)

Lemma raise_for_status_passes r w :
  passes r = true -> raise_for_status r w = (inr tt, w).
Proof.
  unfold passes, raise_for_status. intros H.
  apply negb_true_iff in H. rewrite H. reflexivity.
Qed.

Lemma raise_for_status_fails r w :
  passes r = false -> raise_for_status r w = (inl (HTTPError (status_code r)), w).
Proof.
  unfold passes, raise_for_status. intros H.
  apply negb_false_iff in H. rewrite H. reflexivity.
Qed.

(** The loop, run along a chain of passing pages, arrives at what the
    last of them names, having accumulated their records, logged
    and requested each of them in turn. *)
Lemma fetch_pages_along token : forall later page final fuel acc w,
  linked (registry w) token page later final ->
  (List.length later < fuel)%nat ->
  fetch_pages fuel world_requests (api_headers token) (Some page) acc w =
  fetch_pages (fuel - S (List.length later)) world_requests (api_headers token) final
    (acc ++ flat_map (fun u => json (registry w (get_request token u))) (page :: later))
    (mkWorld (clock w) (logged w ++ map fetch_line (page :: later))
       (sent w ++ map (get_request token) (page :: later)) (token_calls w) (registry w)).
Proof.
  induction later as [|page' later IH]; intros page final fuel acc w Hl Hf;
    (destruct fuel as [|fuel]; [simpl in Hf; lia|]).
  - destruct Hl as [Hp Hn]. simpl.
    unfold bind, logging_info, http. simpl.
    fold (get_request token page).
    rewrite raise_for_status_passes by exact Hp.
    unfold next_of in Hn. rewrite Hn, Nat.sub_0_r, app_nil_r. reflexivity.
  - destruct Hl as (Hp & Hn & Hl'). cbn [fetch_pages].
    unfold bind at 1. unfold logging_info at 1.
    unfold bind at 1. cbn [requests_get world_requests]. unfold http at 1.
    cbn [registry clock logged sent token_calls].
    fold (get_request token page).
    unfold bind at 1. rewrite raise_for_status_passes by exact Hp.
    unfold next_of in Hn. rewrite Hn.
    rewrite (IH page' final); [|exact Hl' | simpl in Hf; lia].
    cbn [registry clock logged sent token_calls List.length map flat_map].
    rewrite <- !app_assoc. reflexivity.
Qed.

(** X9.  Against a registry whose pages link up into a finite chain
    of passing answers, started at the listing URL, [list_versions]
    returns the records of all pages in page order; it asks for one
    token, sends one GET per page, in order and with the bearer
    headers, and logs one line per page. *)
Theorem list_versions_follows_the_links fuel ns pkg token later w :
  linked (registry w) token (versions_url ns pkg) later None ->
  (List.length later < fuel)%nat ->
  list_versions fuel ns pkg (static_token token) world_requests w =
  (inr (flat_map (fun u => json (registry w (get_request token u)))
          (versions_url ns pkg :: later)),
   mkWorld (clock w)
     (logged w ++ map fetch_line (versions_url ns pkg :: later))
     (sent w ++ map (get_request token) (versions_url ns pkg :: later))
     (S (token_calls w)) (registry w)).
Proof.
  intros Hl Hf. unfold list_versions. unfold bind at 1.
  cbn [get_token static_token]. fold (versions_url ns pkg).
  rewrite (fetch_pages_along token later (versions_url ns pkg) None);
    [|exact Hl | exact Hf].
  destruct (fuel - S (List.length later))%nat; reflexivity.
Qed.

(** X10.  When a page of the chain answers with a 4xx or 5xx status,
    [list_versions] raises [HTTPError] with that status: the records
    of the pages before it are not returned, and no request follows
    the failed one. *)
Theorem list_versions_stops_at_a_failed_page fuel ns pkg token later bad w :
  linked (registry w) token (versions_url ns pkg) later (Some bad) ->
  passes (registry w (get_request token bad)) = false ->
  (S (List.length later) < fuel)%nat ->
  list_versions fuel ns pkg (static_token token) world_requests w =
  (inl (HTTPError (status_code (registry w (get_request token bad)))),
   mkWorld (clock w)
     (logged w ++ map fetch_line (versions_url ns pkg :: later ++ [bad]))
     (sent w ++ map (get_request token) (versions_url ns pkg :: later ++ [bad]))
     (S (token_calls w)) (registry w)).
Proof.
  intros Hl Hbad Hf. unfold list_versions. unfold bind at 1.
  cbn [get_token static_token]. fold (versions_url ns pkg).
  rewrite (fetch_pages_along token later (versions_url ns pkg) (Some bad));
    [|exact Hl | lia].
  destruct (fuel - S (List.length later))%nat as [|f] eqn:Ef; [lia|].
  cbn [fetch_pages]. unfold bind at 1. unfold logging_info at 1.
  unfold bind at 1. cbn [requests_get world_requests]. unfold http at 1.
  cbn [registry clock logged sent token_calls].
  fold (get_request token bad).
  unfold bind at 1. rewrite raise_for_status_fails by exact Hbad.
  rewrite !app_comm_cons, !map_app. cbn [map].
  rewrite <- !app_assoc. reflexivity.
Qed.

(** X11.  The loop has no guard against a registry that keeps naming
    a next page: when the listing URL answers with a passing page
    that names itself as the next one, no number of iterations
    completes the listing. *)
Theorem list_versions_follows_a_cycle_forever ns pkg token w :
  passes (registry w (get_request token (versions_url ns pkg))) = true ->
  next_of (registry w (get_request token (versions_url ns pkg))) =
    Some (versions_url ns pkg) ->
  forall fuel,
    fst (list_versions fuel ns pkg (static_token token) world_requests w) = inl OutOfFuel.
Proof.
  intros Hp Hn fuel. unfold list_versions. unfold bind at 1.
  cbn [get_token static_token]. fold (versions_url ns pkg).
  set (w0 := mkWorld (clock w) (logged w) (sent w) (S (token_calls w)) (registry w)).
  assert (Hr : registry w0 = registry w) by reflexivity.
  clearbody w0. rewrite <- Hr in Hp, Hn. clear Hr.
  generalize (@nil PackageVersion) as acc. revert w0 Hp Hn.
  induction fuel as [|fuel IH]; intros w0 Hp Hn acc; [reflexivity|].
  cbn [fetch_pages]. unfold bind at 1. unfold logging_info at 1.
  unfold bind at 1. cbn [requests_get world_requests]. unfold http at 1.
  cbn [registry clock logged sent token_calls].
  fold (get_request token (versions_url ns pkg)).
  unfold bind at 1. rewrite raise_for_status_passes by exact Hp.
  unfold next_of in Hn. rewrite Hn. apply IH; assumption.
Qed.

(** * The executor, live *)

(** X12.  A live removal asks for one token and sends exactly one
    request, the DELETE of that version with the bearer headers.  It
    returns [True] and logs the removal when the status passes; on a
    4xx or 5xx status it raises [HTTPError] with that status and logs
    nothing. *)
Theorem live_removal_outcome ns pkg version_id token w :
  let answer := registry w (delete_request token ns pkg version_id) in
  remove_version ns pkg version_id false (static_token token) world_requests w =
  (if passes answer then inr true else inl (HTTPError (status_code answer)),
   mkWorld (clock w)
     (logged w ++ if passes answer then [removed_line ns pkg version_id] else [])
     (sent w ++ [delete_request token ns pkg version_id])
     (S (token_calls w)) (registry w)).
Proof.
  intros answer. unfold remove_version. unfold bind at 1.
  cbn [get_token static_token].
  unfold bind at 1. cbn [requests_delete world_requests]. unfold http at 1.
  cbn [registry clock logged sent token_calls].
  fold (version_url ns pkg version_id).
  fold (delete_request token ns pkg version_id). fold answer.
  unfold bind at 1.
  destruct (passes answer) eqn:Hp.
  - rewrite raise_for_status_passes by exact Hp. reflexivity.
  - rewrite raise_for_status_fails by exact Hp. rewrite app_nil_r. reflexivity.
Qed.

(** X13.  Without a token there is no request: when the provider
    raises, [list_versions] and a live [remove_version] raise the
    same exception and leave the world as the provider left it,
    whatever the requests module is. *)
Theorem no_token_no_request fuel ns pkg version_id token_provider requests_module w e w1 :
  get_token token_provider w = (inl e, w1) ->
  list_versions fuel ns pkg token_provider requests_module w = (inl e, w1) /\
  remove_version ns pkg version_id false token_provider requests_module w = (inl e, w1).
Proof.
  intros H. unfold list_versions, remove_version, bind. rewrite H. split; reflexivity.
Qed.

(** * The driver *)

Lemma only_logged_refl w : only_logged w w.
Proof. unfold only_logged. auto. Qed.

Lemma only_logged_trans w1 w2 w3 :
  only_logged w1 w2 -> only_logged w2 w3 -> only_logged w1 w3.
Proof.
  unfold only_logged. intros (A & B & C & D) (A' & B' & C' & D').
  repeat split; congruence.
Qed.

Lemma logging_info_only msg w :
  exists w', logging_info msg w = (inr tt, w') /\ only_logged w w'.
Proof. eexists. split; [reflexivity|]. unfold only_logged. simpl. auto. Qed.

Lemma for_each_only {A} (body : A -> M unit) :
  (forall x w, exists w', body x w = (inr tt, w') /\ only_logged w w') ->
  forall l w, exists w', for_each l body w = (inr tt, w') /\ only_logged w w'.
Proof.
  intros Hb l. induction l as [|x l IH]; intros w; simpl.
  - exists w. split; [reflexivity | apply only_logged_refl].
  - destruct (Hb x w) as (w1 & E1 & L1). destruct (IH w1) as (w2 & E2 & L2).
    exists w2. unfold bind. rewrite E1. split; [exact E2|].
    eapply only_logged_trans; eassumption.
Qed.

(** With a valid [--all], a listing and a classification that
    succeed, the driver logs its report and goes on to the removal
    phase; up to there only the listing touched anything but the
    log. *)
Lemma driver_reaches_removal args list_versions_func find_versions_func
    remove_version_func w w1 w1' all_versions acts :
  all_flag_valid args ->
  list_versions_func (namespace args) (package args) w = (inr all_versions, w1) ->
  find_versions_func all_versions (tagged_max_age args) (keep_tags_pattern args)
    (wants_all args) w1 = (inr acts, w1') ->
  exists w2,
    only_logged w1' w2 /\
    cleanup_versions_command args list_versions_func find_versions_func
      remove_version_func w = removal_phase args remove_version_func acts w2.
Proof.
  intros Hall Hlist Hfind.
  assert (Hpre :
    (match all args with
     | Some _ =>
         if negb (wants_all args) then
           logging_error "Invalid value for --all flag. Must be '--all=yes-remove-all'." ;;;
           raise (SystemExit 1)
         else ret tt
     | None => ret tt
     end) w = (inr tt, w)).
  { unfold wants_all. destruct Hall as [-> | ->]; reflexivity. }
  unfold cleanup_versions_command. fold (wants_all args).
  unfold bind at 1. rewrite Hpre.
  unfold bind at 1. rewrite Hlist.
  unfold bind at 1. rewrite Hfind.
  destruct (logging_info_only
              ("Found " ++ str_len acts ++ " versions from "
               ++ namespace args ++ "/" ++ package args ++ ":")%string w1')
    as (wa & Ea & La).
  unfold bind at 1. rewrite Ea.
  match goal with
  | |- context [for_each acts ?body] =>
      destruct (for_each_only body) with (l := acts) (w := wa) as (wb & Eb & Lb)
  end.
  { intros a w0.
    unfold bind, logging_info. eexists. split; [reflexivity|].
    unfold only_logged. simpl. auto. }
  unfold bind at 1. rewrite Eb.
  exists wb. split; [eapply only_logged_trans; eassumption | reflexivity].
Qed.

(** X14.  A value of [--all] other than [yes-remove-all] ends the
    command with exit status 1 after one error record: nothing is
    listed, classified or removed, whatever the three functions
    are. *)
Theorem invalid_all_flag_exits_first args list_versions_func find_versions_func
    remove_version_func w s :
  all args = Some s ->
  s <> "yes-remove-all" ->
  cleanup_versions_command args list_versions_func find_versions_func
    remove_version_func w =
  (inl (SystemExit 1),
   mkWorld (clock w)
     (logged w ++ ["ERROR: Invalid value for --all flag. Must be '--all=yes-remove-all'."])
     (sent w) (token_calls w) (registry w)).
Proof.
  intros Hall Hs. unfold cleanup_versions_command. rewrite Hall.
  apply String.eqb_neq in Hs. rewrite Hs. reflexivity.
Qed.

Lemma dry_loop_only ns pkg token_provider requests_module :
  forall (l : list PackageVersion) w,
  exists w',
    for_each l
      (fun v => _ <- remove_version ns pkg (id v) true token_provider requests_module ;;
                ret tt) w = (inr tt, w') /\
    only_logged w w'.
Proof.
  apply for_each_only. intros v w.
  unfold bind, remove_version, logging_info, ret. eexists. split; [reflexivity|].
  unfold only_logged. simpl. auto.
Qed.

(** X15.  Without [--really-remove] the command removes nothing: once
    the listing and the classification have succeeded it ends
    normally, and from the listing on nothing is sent and no token is
    asked for, whatever the classification says and whatever the
    token provider and the requests module of the removal function
    are. *)
Theorem dry_run_command_removes_nothing args list_versions_func find_versions_func
    token_provider requests_module w w1 w1' all_versions acts :
  really_remove args = false ->
  all_flag_valid args ->
  list_versions_func (namespace args) (package args) w = (inr all_versions, w1) ->
  find_versions_func all_versions (tagged_max_age args) (keep_tags_pattern args)
    (wants_all args) w1 = (inr acts, w1') ->
  exists w2,
    cleanup_versions_command args list_versions_func find_versions_func
      (fun ns pkg version_id dry_run =>
         remove_version ns pkg version_id dry_run token_provider requests_module) w
    = (inr tt, w2) /\
    sent w2 = sent w1' /\ token_calls w2 = token_calls w1' /\
    clock w2 = clock w1' /\ registry w2 = registry w1'.
Proof.
  intros Hdry Hall Hlist Hfind.
  destruct (driver_reaches_removal args list_versions_func find_versions_func
              (fun ns pkg version_id dry_run =>
                 remove_version ns pkg version_id dry_run token_provider requests_module)
              w w1 w1' all_versions acts Hall Hlist Hfind) as (wa & La & Ea).
  rewrite Ea. unfold removal_phase. rewrite Hdry. cbn [negb].
  assert (Hfin : forall w2, only_logged w1' w2 ->
            sent w2 = sent w1' /\ token_calls w2 = token_calls w1' /\
            clock w2 = clock w1' /\ registry w2 = registry w1').
  { unfold only_logged. intros w2 (A & B & C & D). auto. }
  destruct (map version (filter _ acts)) as [|v rest].
  - destruct (logging_info_only
                ("No versions to remove from " ++ namespace args ++ "/"
                 ++ package args ++ ".")%string wa) as (wb & Eb & Lb).
    exists wb. split; [exact Eb|]. apply Hfin. eapply only_logged_trans; eassumption.
  - match goal with
    | |- context [bind (logging_info ?m) _] =>
        destruct (logging_info_only m wa) as (wb & Eb & Lb)
    end.
    unfold bind at 1. rewrite Eb.
    destruct (dry_loop_only (namespace args) (package args) token_provider
                requests_module (v :: rest) wb) as (wc & Ec & Lc).
    unfold bind at 1. rewrite Ec.
    match goal with
    | |- context [logging_info ?m wc] =>
        destruct (logging_info_only m wc) as (wd & Ed & Ld)
    end.
    exists wd. split; [exact Ed|]. apply Hfin.
    eapply only_logged_trans; [exact La|].
    eapply only_logged_trans; [exact Lb|].
    eapply only_logged_trans; eassumption.
Qed.

Lemma remover_step_passes token ns pkg version_id w :
  passes (registry w (delete_request token ns pkg version_id)) = true ->
  (_ <- world_remover token ns pkg version_id false ;; ret tt) w =
  (inr tt,
   mkWorld (clock w) (logged w ++ [removed_line ns pkg version_id])
     (sent w ++ [delete_request token ns pkg version_id])
     (S (token_calls w)) (registry w)).
Proof.
  intros Hp. unfold world_remover, remove_version.
  unfold bind at 1. unfold bind at 1.
  cbn [get_token static_token].
  unfold bind at 1. cbn [requests_delete world_requests]. unfold http at 1.
  cbn [registry clock logged sent token_calls].
  fold (version_url ns pkg version_id).
  fold (delete_request token ns pkg version_id).
  unfold bind at 1. rewrite raise_for_status_passes by exact Hp.
  reflexivity.
Qed.

Lemma remover_step_fails token ns pkg version_id w :
  passes (registry w (delete_request token ns pkg version_id)) = false ->
  (_ <- world_remover token ns pkg version_id false ;; ret tt) w =
  (inl (HTTPError (status_code (registry w (delete_request token ns pkg version_id)))),
   mkWorld (clock w) (logged w)
     (sent w ++ [delete_request token ns pkg version_id])
     (S (token_calls w)) (registry w)).
Proof.
  intros Hp. unfold world_remover, remove_version.
  unfold bind at 1. unfold bind at 1.
  cbn [get_token static_token].
  unfold bind at 1. cbn [requests_delete world_requests]. unfold http at 1.
  cbn [registry clock logged sent token_calls].
  fold (version_url ns pkg version_id).
  fold (delete_request token ns pkg version_id).
  unfold bind at 1. rewrite raise_for_status_fails by exact Hp.
  reflexivity.
Qed.

(** The removal loop over versions whose DELETE passes. *)
Lemma live_loop_passes token ns pkg : forall (l : list PackageVersion) w,
  (forall v, In v l ->
     passes (registry w (delete_request token ns pkg (id v))) = true) ->
  exists w',
    for_each l (fun v => _ <- world_remover token ns pkg (id v) false ;; ret tt) w
    = (inr tt, w') /\
    sent w' = sent w ++ map (fun v => delete_request token ns pkg (id v)) l /\
    token_calls w' = (token_calls w + List.length l)%nat /\
    clock w' = clock w /\ registry w' = registry w.
Proof.
  induction l as [|v l IH]; intros w Hp.
  - exists w. simpl. rewrite app_nil_r, Nat.add_0_r. auto.
  - cbn [for_each]. unfold bind at 1.
    rewrite remover_step_passes by (apply Hp; now left).
    match goal with
    | |- context [for_each l _ ?w1] => destruct (IH w1) as (w' & E & Hs & Ht & Hc & Hr)
    end.
    { intros x Hx. simpl. apply Hp. now right. }
    exists w'. split; [exact E|]. simpl in Hs, Ht, Hc, Hr.
    rewrite Hs, Ht, Hc, Hr. simpl. rewrite <- app_assoc. simpl.
    repeat split; auto; lia.
Qed.

(** The removal loop up to the first version whose DELETE fails. *)
Lemma live_loop_stops token ns pkg : forall (pre : list PackageVersion) v post w,
  (forall x, In x pre ->
     passes (registry w (delete_request token ns pkg (id x))) = true) ->
  passes (registry w (delete_request token ns pkg (id v))) = false ->
  exists w',
    for_each (pre ++ v :: post)
      (fun v => _ <- world_remover token ns pkg (id v) false ;; ret tt) w
    = (inl (HTTPError (status_code (registry w (delete_request token ns pkg (id v))))),
       w') /\
    sent w' = sent w ++ map (fun v => delete_request token ns pkg (id v)) (pre ++ [v]) /\
    token_calls w' = (token_calls w + S (List.length pre))%nat /\
    clock w' = clock w /\ registry w' = registry w.
Proof.
  induction pre as [|x pre IH]; intros v post w Hp Hv.
  - cbn [app for_each]. unfold bind at 1.
    rewrite remover_step_fails by exact Hv.
    eexists. split; [reflexivity|]. simpl. repeat split; auto; lia.
  - cbn [app for_each]. unfold bind at 1.
    rewrite remover_step_passes by (apply Hp; now left).
    match goal with
    | |- context [for_each _ _ ?w1] =>
        destruct (IH v post w1) as (w' & E & Hs & Ht & Hc & Hr)
    end.
    { intros y Hy. simpl. apply Hp. now right. }
    { exact Hv. }
    simpl in E, Hs, Ht, Hc, Hr.
    exists w'. split; [exact E|].
    rewrite Hs, Ht, Hc, Hr. simpl. rewrite <- app_assoc. simpl.
    repeat split; auto; lia.
Qed.

(** The removal phase, live, when every DELETE passes. *)
Lemma removal_phase_live args token acts w :
  really_remove args = true ->
  (forall v, In v (to_remove acts) ->
     passes (registry w
               (delete_request token (namespace args) (package args) (id v))) = true) ->
  exists w',
    removal_phase args (world_remover token) acts w = (inr tt, w') /\
    sent w' = sent w ++
      map (fun v => delete_request token (namespace args) (package args) (id v))
        (to_remove acts) /\
    token_calls w' = (token_calls w + List.length (to_remove acts))%nat /\
    clock w' = clock w /\ registry w' = registry w.
Proof.
  intros Hlive Hp. unfold removal_phase. fold (to_remove acts).
  rewrite Hlive. cbn [negb].
  destruct (to_remove acts) as [|v rest] eqn:Er.
  - eexists. split; [reflexivity|]. simpl. rewrite app_nil_r, Nat.add_0_r. auto.
  - unfold bind at 1. unfold logging_info at 1. unfold bind at 1.
    match goal with
    | |- context [for_each _ _ ?w1] =>
        destruct (live_loop_passes token (namespace args) (package args) (v :: rest) w1)
          as (w' & E & Hs & Ht & Hc & Hr)
    end.
    { intros x Hx. simpl. apply Hp, Hx. }
    rewrite E.
    cbn [registry sent clock logged token_calls] in Hs, Ht, Hc, Hr.
    eexists. split; [reflexivity|]. simpl. auto.
Qed.

(** X16.  With [--really-remove], once the listing and the
    classification have succeeded and the registry accepts every
    DELETE, the command ends normally having sent, after the
    listing, exactly one DELETE per action that says [delete], in the
    order of the actions, and nothing for an action that says
    [keep]; it asked for one token per removal. *)
Theorem live_command_deletes_what_is_marked args list_versions_func find_versions_func
    token w w1 w1' all_versions acts :
  really_remove args = true ->
  all_flag_valid args ->
  list_versions_func (namespace args) (package args) w = (inr all_versions, w1) ->
  find_versions_func all_versions (tagged_max_age args) (keep_tags_pattern args)
    (wants_all args) w1 = (inr acts, w1') ->
  (forall v, In v (to_remove acts) ->
     passes (registry w1'
               (delete_request token (namespace args) (package args) (id v))) = true) ->
  exists w2,
    cleanup_versions_command args list_versions_func find_versions_func
      (world_remover token) w = (inr tt, w2) /\
    sent w2 = sent w1' ++
      map (fun v => delete_request token (namespace args) (package args) (id v))
        (to_remove acts) /\
    token_calls w2 = (token_calls w1' + List.length (to_remove acts))%nat /\
    clock w2 = clock w1' /\ registry w2 = registry w1'.
Proof.
  intros Hlive Hall Hlist Hfind Hp.
  destruct (driver_reaches_removal args list_versions_func find_versions_func
              (world_remover token) w w1 w1' all_versions acts Hall Hlist Hfind)
    as (wa & (Lc & Ls & Lt & Lr) & Ea).
  rewrite Ea.
  destruct (removal_phase_live args token acts wa Hlive) as (w2 & E & Hs & Ht & Hc & Hr).
  { intros v Hv. rewrite Lr. apply Hp, Hv. }
  exists w2. split; [exact E|].
  rewrite Hs, Ht, Hc, Hr, Ls, Lt, Lc, Lr. auto.
Qed.

(** X17.  A failed DELETE ends the run: when the registry accepts the
    removals before some version and answers that version's DELETE
    with a 4xx or 5xx status, the command raises [HTTPError] with
    that status; the earlier versions have been removed, and no
    request is sent for the later ones. *)
Theorem live_command_stops_at_first_failure args list_versions_func find_versions_func
    token w w1 w1' all_versions acts pre v post :
  really_remove args = true ->
  all_flag_valid args ->
  list_versions_func (namespace args) (package args) w = (inr all_versions, w1) ->
  find_versions_func all_versions (tagged_max_age args) (keep_tags_pattern args)
    (wants_all args) w1 = (inr acts, w1') ->
  to_remove acts = pre ++ v :: post ->
  (forall x, In x pre ->
     passes (registry w1'
               (delete_request token (namespace args) (package args) (id x))) = true) ->
  passes (registry w1'
            (delete_request token (namespace args) (package args) (id v))) = false ->
  exists w2,
    cleanup_versions_command args list_versions_func find_versions_func
      (world_remover token) w =
    (inl (HTTPError
            (status_code
               (registry w1'
                  (delete_request token (namespace args) (package args) (id v))))),
     w2) /\
    sent w2 = sent w1' ++
      map (fun x => delete_request token (namespace args) (package args) (id x))
        (pre ++ [v]).
Proof.
  intros Hlive Hall Hlist Hfind Hsplit Hpre Hv.
  destruct (driver_reaches_removal args list_versions_func find_versions_func
              (world_remover token) w w1 w1' all_versions acts Hall Hlist Hfind)
    as (wa & (Lc & Ls & Lt & Lr) & Ea).
  rewrite Ea. unfold removal_phase. fold (to_remove acts).
  rewrite Hlive, Hsplit. cbn [negb].
  assert (Hcons : exists y rest, pre ++ v :: post = y :: rest)
    by (destruct pre; simpl; eauto).
  destruct Hcons as (y & rest & El). rewrite El. cbv iota. rewrite <- El.
  unfold bind at 1. unfold logging_info at 1. unfold bind at 1.
  match goal with
  | |- context [for_each _ _ ?w0] =>
      destruct (live_loop_stops token (namespace args) (package args) pre v post w0)
        as (w2 & E & Hs & _)
  end.
  { intros x Hx. simpl. rewrite Lr. apply Hpre, Hx. }
  { simpl. rewrite Lr. exact Hv. }
  cbn [registry sent clock logged token_calls] in E, Hs. rewrite E.
  exists w2. rewrite Lr, <- Ls. auto.
Qed.

Section DriverWithEngine.
Context {rt : PyRuntime}.

Lemma remove_all_actions versions age pat w :
  find_versions_to_clean versions age pat true w =
  (inr (map (fun v => mkCleanupAction v delete reason_remove_all) versions), w).
Proof.
  unfold find_versions_to_clean, ret. rewrite fold_append_map. reflexivity.
Qed.

Lemma to_remove_all_delete versions rsn :
  to_remove (map (fun v => mkCleanupAction v delete rsn) versions) = versions.
Proof.
  unfold to_remove. induction versions as [|v l IH]; simpl; [reflexivity|].
  now rewrite IH.
Qed.

(** X18.  With [--all=yes-remove-all] and [--really-remove], once the
    listing has succeeded and the registry accepts every DELETE, the
    command sends one DELETE per listed version, in listing order,
    whatever the maximum age and the keep pattern are, even a pattern
    that does not compile. *)
Theorem remove_all_command_deletes_every_version args list_versions_func token
    w w1 all_versions :
  all args = Some "yes-remove-all" ->
  really_remove args = true ->
  list_versions_func (namespace args) (package args) w = (inr all_versions, w1) ->
  (forall v, In v all_versions ->
     passes (registry w1
               (delete_request token (namespace args) (package args) (id v))) = true) ->
  exists w2,
    cleanup_versions_command args list_versions_func find_versions_to_clean
      (world_remover token) w = (inr tt, w2) /\
    sent w2 = sent w1 ++
      map (fun v => delete_request token (namespace args) (package args) (id v))
        all_versions /\
    token_calls w2 = (token_calls w1 + List.length all_versions)%nat.
Proof.
  intros Hall Hlive Hlist Hp.
  assert (Hw : wants_all args = true) by (unfold wants_all; now rewrite Hall).
  assert (Hfind :
    find_versions_to_clean all_versions (tagged_max_age args) (keep_tags_pattern args)
      (wants_all args) w1 =
    (inr (map (fun v => mkCleanupAction v delete reason_remove_all) all_versions), w1))
    by (rewrite Hw; apply remove_all_actions).
  destruct (driver_reaches_removal args list_versions_func find_versions_to_clean
              (world_remover token) w w1 w1 all_versions _
              (or_intror Hall) Hlist Hfind)
    as (wa & (Lc & Ls & Lt & Lr) & Ea).
  rewrite Ea.
  destruct (removal_phase_live args token
              (map (fun v => mkCleanupAction v delete reason_remove_all) all_versions)
              wa Hlive) as (w2 & E & Hs & Ht & _).
  { intros v Hv. rewrite to_remove_all_delete in Hv. rewrite Lr. apply Hp, Hv. }
  rewrite to_remove_all_delete in Hs, Ht.
  exists w2. split; [exact E|]. rewrite Hs, Ht, Ls, Lt. auto.
Qed.

End DriverWithEngine.

(** * The Link header *)

Lemma prefix_refl s : String.prefix s s = true.
Proof.
  induction s as [|c s IH]; simpl; [reflexivity|].
  destruct (ascii_dec c c); [exact IH | congruence].
Qed.

Lemma str_contains_self s : str_contains s s = true.
Proof.
  destruct s as [|c s]; [reflexivity|].
  cbn [str_contains]. rewrite prefix_refl. reflexivity.
Qed.

Lemma str_contains_app_r needle a b :
  str_contains needle b = true -> str_contains needle (a ++ b) = true.
Proof.
  intros H. induction a as [|c a IH]; simpl; [exact H|].
  rewrite IH. apply orb_true_r.
Qed.

Lemma lacks_app c a b : lacks c (a ++ b) = lacks c a && lacks c b.
Proof.
  induction a as [|x a IH]; simpl; [reflexivity|].
  rewrite IH. apply andb_assoc.
Qed.

Lemma split_no_separator sep s :
  lacks sep s = true -> str_split sep s = [s].
Proof.
  induction s as [|c s IH]; simpl; [reflexivity|].
  intros H. apply andb_true_iff in H as [Hc Hs].
  apply negb_true_iff in Hc. rewrite Hc, (IH Hs). reflexivity.
Qed.

Lemma split_at_separator sep a b :
  lacks sep a = true ->
  str_split sep (a ++ String sep b) = a :: str_split sep b.
Proof.
  induction a as [|c a IH]; simpl.
  - intros _. rewrite Ascii.eqb_refl. reflexivity.
  - intros H. apply andb_true_iff in H as [Hc Ha].
    apply negb_true_iff in Hc. rewrite Hc, (IH Ha). reflexivity.
Qed.

(** Splitting what was joined gives the parts back, when no part
    holds the separator. *)
Lemma split_join sep (l : list string) :
  l <> [] ->
  (forall part, In part l -> lacks sep part = true) ->
  str_split sep (str_join (String sep EmptyString) l) = l.
Proof.
  induction l as [|x l IH]; [congruence|]. intros _ Hl.
  destruct l as [|y l].
  - simpl. apply split_no_separator, Hl. now left.
  - change (str_join (String sep "") (x :: y :: l))
      with (x ++ String sep (str_join (String sep "") (y :: l)))%string.
    rewrite split_at_separator by (apply Hl; now left).
    f_equal. apply IH; [discriminate|]. intros part Hp. apply Hl. now right.
Qed.

Lemma before_gt_found target more :
  lacks ">" target = true ->
  before_gt (target ++ String ">" more) = Some target.
Proof.
  induction target as [|c t IH]; simpl; [reflexivity|].
  intros H. apply andb_true_iff in H as [Hc Ht].
  apply negb_true_iff in Hc. rewrite Hc, (IH Ht). reflexivity.
Qed.

Lemma search_angle_next_link target :
  target <> EmptyString ->
  lacks ">" target = true ->
  search_angle (next_link target) = Some target.
Proof.
  intros Hne Hl. unfold next_link.
  change ("<" ++ target ++ ">; " ++ rel_next)%string
    with (String "<" (target ++ String ">" ("; " ++ rel_next)))%string.
  cbn [search_angle]. rewrite Ascii.eqb_refl.
  rewrite before_gt_found by exact Hl.
  destruct target; [congruence | reflexivity].
Qed.

Lemma str_app_assoc (a b c : string) : ((a ++ b) ++ c = a ++ (b ++ c))%string.
Proof. induction a as [|x a IH]; simpl; [reflexivity | now rewrite IH]. Qed.

Lemma next_link_has_rel_next target :
  str_contains rel_next (next_link target) = true.
Proof.
  unfold next_link.
  replace ("<" ++ target ++ ">; " ++ rel_next)%string
    with (("<" ++ target ++ ">; ") ++ rel_next)%string.
  - apply str_contains_app_r, str_contains_self.
  - simpl. f_equal. apply str_app_assoc.
Qed.

Lemma links_without_next (l : list string) : forall acc,
  (forall part, In part l -> str_contains rel_next part = false) ->
  fold_left link_step l acc = acc.
Proof.
  induction l as [|x l IH]; intros acc H; simpl; [reflexivity|].
  unfold link_step at 2. rewrite (H x) by now left.
  apply IH. intros part Hp. apply H. now right.
Qed.

Lemma search_angle_skips lead rest :
  lacks "<" lead = true -> search_angle (lead ++ rest) = search_angle rest.
Proof.
  induction lead as [|c l IH]; simpl; [reflexivity|].
  intros H. apply andb_true_iff in H as [Hc Hl].
  apply negb_true_iff in Hc. rewrite Hc. apply IH, Hl.
Qed.

(** X19.  A Link header made of comma-separated links, exactly one of
    which carries [rel="next"] in the registry's format, names as
    next page the text between that link's angle brackets, wherever
    the link stands among the others and whatever blanks precede
    it. *)
Theorem next_page_is_read_from_the_next_link before after lead target :
  target <> EmptyString ->
  lacks ">" target = true ->
  lacks "," target = true ->
  lacks "<" lead = true ->
  lacks "," lead = true ->
  (forall part, In part (before ++ after) ->
     lacks "," part = true /\ str_contains rel_next part = false) ->
  next_page_of (str_join "," (before ++ [(lead ++ next_link target)%string] ++ after))
  = Some target.
Proof.
  intros Hne Hgt Hcomma Hlead Hleadc Hparts. unfold next_page_of.
  rewrite split_join.
  - change (fold_left link_step (before ++ [(lead ++ next_link target)%string] ++ after)
              None = Some target).
    rewrite !fold_left_app.
    rewrite (links_without_next before)
      by (intros part Hp; apply Hparts, in_or_app; now left).
    cbn [fold_left]. unfold link_step at 2.
    rewrite (str_contains_app_r _ lead _ (next_link_has_rel_next target)).
    rewrite search_angle_skips, search_angle_next_link by assumption.
    apply links_without_next.
    intros part Hp. apply Hparts, in_or_app. now right.
  - destruct before; discriminate.
  - intros part Hp. apply in_app_or in Hp as [Hp|Hp].
    + apply Hparts, in_or_app. now left.
    + destruct Hp as [<-|Hp].
      * unfold next_link. rewrite !lacks_app, Hcomma, Hleadc. reflexivity.
      * apply Hparts, in_or_app. now right.
Qed.

(** X20.  A Link header none of whose links carries [rel="next"]
    names no next page, so the listing loop ends after that page. *)
Theorem no_next_link_no_next_page (links : list string) :
  links <> [] ->
  (forall part, In part links ->
     lacks "," part = true /\ str_contains rel_next part = false) ->
  next_page_of (str_join "," links) = None.
Proof.
  intros Hne Hparts. unfold next_page_of.
  rewrite split_join; [|exact Hne | intros part Hp; apply Hparts, Hp].
  change (fold_left link_step links None = None).
  apply links_without_next. intros part Hp. apply Hparts, Hp.
Qed.

(** * The further properties on concrete data *)

(** X1 on the sample input. *)
Lemma engine_returns_only_on_sound_input_witness :
  find_versions_to_clean Sample.versions Sample.two_days Sample.archive_pattern false
    Sample.world0 = (inr Cases.sample_actions, Sample.world0) /\
  (Sample.world0 = Sample.world0 /\
   map version Cases.sample_actions =
     tagged_group Sample.versions ++ orphan_group Sample.versions /\
   List.length Cases.sample_actions = List.length Sample.versions /\
   (false = false ->
    (exists delta cutoff p,
       policy_ok Sample.world0 Sample.two_days Sample.archive_pattern delta cutoff p) /\
    forall v, In v Sample.versions -> exists d, parse_created_at v = inr d)).
Proof.
  assert (H : find_versions_to_clean Sample.versions Sample.two_days
                Sample.archive_pattern false Sample.world0
              = (inr Cases.sample_actions, Sample.world0)) by (vm_compute; reflexivity).
  split; [exact H|].
  exact (engine_returns_only_on_sound_input Sample.versions Sample.two_days
           Sample.archive_pattern false Sample.world0 Sample.world0
           Cases.sample_actions H).
Defined.


(** X3 on two sample inputs that share the manifest list. *)
Lemma tagged_decision_is_local_witness :
  find_versions_to_clean Sample.versions Sample.two_days Sample.archive_pattern false
    Sample.world0 = (inr Cases.sample_actions, Sample.world0) /\
  find_versions_to_clean Sample.versions_fewer Sample.two_days Sample.archive_pattern
    false Sample.world0 = (inr Cases.sample_actions_fewer, Sample.world0) /\
  In Cases.manifest_action Cases.sample_actions /\
  In Cases.manifest_action Cases.sample_actions_fewer /\
  has_real_tags (version Cases.manifest_action) = true /\
  Cases.manifest_action = Cases.manifest_action.
Proof.
  assert (H : find_versions_to_clean Sample.versions Sample.two_days
                Sample.archive_pattern false Sample.world0
              = (inr Cases.sample_actions, Sample.world0)) by (vm_compute; reflexivity).
  assert (H' : find_versions_to_clean Sample.versions_fewer Sample.two_days
                 Sample.archive_pattern false Sample.world0
               = (inr Cases.sample_actions_fewer, Sample.world0))
    by (vm_compute; reflexivity).
  assert (Ha : In Cases.manifest_action Cases.sample_actions) by (left; reflexivity).
  assert (Ha' : In Cases.manifest_action Cases.sample_actions_fewer)
    by (left; reflexivity).
  assert (Ht : has_real_tags (version Cases.manifest_action) = true) by reflexivity.
  repeat (split; [assumption|]).
  exact (tagged_decision_is_local Sample.versions Sample.versions_fewer Sample.two_days
           Sample.archive_pattern Sample.world0 Cases.sample_actions
           Cases.sample_actions_fewer Cases.manifest_action Cases.manifest_action
           H H' Ha Ha' eq_refl Ht).
Defined.

(** X4 on an input whose only tagged version is stale. *)
Lemma nothing_kept_without_a_kept_tagged_witness :
  find_versions_to_clean Cases.all_stale Sample.two_days Sample.archive_pattern false
    Sample.world0 = (inr Cases.all_stale_actions, Sample.world0) /\
  (forall a, In a Cases.all_stale_actions ->
     In (version a) (tagged_group Cases.all_stale) -> action a = delete) /\
  forall a, In a Cases.all_stale_actions ->
    action a = delete /\
    (In (version a) (orphan_group Cases.all_stale) -> reason a = reason_orphan).
Proof.
  assert (H : find_versions_to_clean Cases.all_stale Sample.two_days
                Sample.archive_pattern false Sample.world0
              = (inr Cases.all_stale_actions, Sample.world0))
    by (vm_compute; reflexivity).
  assert (Hn : forall a, In a Cases.all_stale_actions ->
                 In (version a) (tagged_group Cases.all_stale) -> action a = delete).
  { intros a Ha _. destruct Ha as [<-|[<-|[<-|[]]]]; reflexivity. }
  split; [exact H|]. split; [exact Hn|].
  exact (nothing_kept_without_a_kept_tagged Cases.all_stale Sample.two_days
           Sample.archive_pattern Sample.world0 Cases.all_stale_actions H Hn).
Defined.

(** X5 for two days against seven. *)
Lemma longer_max_age_keeps_more_witness :
  Sample.two_days <= Cases.seven_days /\
  policy_ok Sample.world0 Sample.two_days Sample.archive_pattern
    Sample.delta0 Sample.cutoff0 Sample.pattern0 /\
  policy_ok Sample.world0 Cases.seven_days Sample.archive_pattern
    Cases.delta7 Cases.cutoff7 Sample.pattern0 /\
  utc_timestamps Sample.versions /\
  NoDup (map id (tagged_group Sample.versions)) /\
  exists acts acts',
    find_versions_to_clean Sample.versions Sample.two_days Sample.archive_pattern false
      Sample.world0 = (inr acts, Sample.world0) /\
    find_versions_to_clean Sample.versions Cases.seven_days Sample.archive_pattern false
      Sample.world0 = (inr acts', Sample.world0) /\
    forall a a', In a acts -> In a' acts' -> version a = version a' ->
      action a = keep -> action a' = keep.
Proof.
  assert (Hle : Sample.two_days <= Cases.seven_days) by (vm_compute; discriminate).
  assert (Hp : policy_ok Sample.world0 Sample.two_days Sample.archive_pattern
                 Sample.delta0 Sample.cutoff0 Sample.pattern0) by sample_policy.
  assert (Hp' : policy_ok Sample.world0 Cases.seven_days Sample.archive_pattern
                  Cases.delta7 Cases.cutoff7 Sample.pattern0) by sample_policy.
  assert (Hu : utc_timestamps Sample.versions) by sample_utc.
  assert (Hn : NoDup (map id (tagged_group Sample.versions))) by sample_nodup.
  repeat (split; [assumption|]).
  exact (longer_max_age_keeps_more Sample.versions Sample.two_days Cases.seven_days
           Sample.archive_pattern Sample.world0 Sample.delta0 Sample.cutoff0
           Cases.delta7 Cases.cutoff7 Sample.pattern0 Hle Hp Hp' Hu Hn).
Defined.

(** X7: the token survives the loss of the environment. *)
Lemma token_is_memoized_witness :
  "test-token-from-env" <> EmptyString /\
  forall o2,
    GitHubTokenProvider.get_token (Some "test-token-from-env") o2 =
    (inr "test-token-from-env", Some "test-token-from-env", o2).
Proof.
  apply (token_is_memoized None Cases.with_env "test-token-from-env"
           (Some "test-token-from-env") Cases.with_env).
  reflexivity.
Defined.

(** X9 on the two pages of the pagination scenario. *)
Lemma list_versions_follows_the_links_witness :
  linked Cases.two_pages "test-token" Cases.first_page [Cases.second_page] None /\
  list_versions 10 "user/test" "test-package" (static_token "test-token") world_requests
    (Cases.world_of Cases.two_pages) =
  (inr [Sample.manifest_list; Sample.orphan_amd64; Sample.stale],
   mkWorld (clock (Cases.world_of Cases.two_pages))
     (map fetch_line [Cases.first_page; Cases.second_page])
     (map (get_request "test-token") [Cases.first_page; Cases.second_page])
     1 Cases.two_pages).
Proof.
  assert (Hl : linked Cases.two_pages "test-token" Cases.first_page
                 [Cases.second_page] None)
    by (repeat split; vm_compute; reflexivity).
  split; [exact Hl|].
  apply (list_versions_follows_the_links 10 "user/test" "test-package" "test-token"
           [Cases.second_page] (Cases.world_of Cases.two_pages) Hl).
  simpl. lia.
Defined.

(** X10 when the second page answers 502. *)
Lemma list_versions_stops_at_a_failed_page_witness :
  linked Cases.second_fails "test-token" Cases.first_page [] (Some Cases.second_page) /\
  passes (Cases.second_fails (get_request "test-token" Cases.second_page)) = false /\
  list_versions 10 "user/test" "test-package" (static_token "test-token") world_requests
    (Cases.world_of Cases.second_fails) =
  (inl (HTTPError 502),
   mkWorld (clock (Cases.world_of Cases.second_fails))
     (map fetch_line [Cases.first_page; Cases.second_page])
     (map (get_request "test-token") [Cases.first_page; Cases.second_page])
     1 Cases.second_fails).
Proof.
  assert (Hl : linked Cases.second_fails "test-token" Cases.first_page []
                 (Some Cases.second_page))
    by (repeat split; vm_compute; reflexivity).
  assert (Hb : passes (Cases.second_fails (get_request "test-token" Cases.second_page))
               = false) by (vm_compute; reflexivity).
  split; [exact Hl|]. split; [exact Hb|].
  apply (list_versions_stops_at_a_failed_page 10 "user/test" "test-package"
           "test-token" [] Cases.second_page (Cases.world_of Cases.second_fails) Hl Hb).
  simpl. lia.
Defined.

(** X11 against a page that names itself. *)
Lemma list_versions_follows_a_cycle_forever_witness :
  fst (list_versions 1000 "user/test" "test-package" (static_token "test-token")
         world_requests (Cases.world_of Cases.endless)) = inl OutOfFuel.
Proof.
  refine (list_versions_follows_a_cycle_forever "user/test" "test-package" "test-token"
            (Cases.world_of Cases.endless) _ _ 1000); vm_compute; reflexivity.
Defined.

(** X13 with a provider that has no token. *)
Lemma no_token_no_request_witness :
  list_versions 10 "user/test" "test-package" Cases.no_token world_requests
    Sample.world1 = (inl AuthenticationError, Sample.world1) /\
  remove_version "user/test" "test-package" 1234 false Cases.no_token world_requests
    Sample.world1 = (inl AuthenticationError, Sample.world1).
Proof.
  apply (no_token_no_request 10 "user/test" "test-package" 1234 Cases.no_token
           world_requests Sample.world1 AuthenticationError Sample.world1).
  reflexivity.
Defined.

(** X14 with [--all=yes]. *)
Lemma invalid_all_flag_exits_first_witness :
  fst (cleanup_versions_command Cases.misspelt_args Sample.lister find_versions_to_clean
         Sample.remover Sample.world1) = inl (SystemExit 1) /\
  sent (snd (cleanup_versions_command Cases.misspelt_args Sample.lister
               find_versions_to_clean Sample.remover Sample.world1)) = [].
Proof.
  rewrite (invalid_all_flag_exits_first Cases.misspelt_args Sample.lister
             find_versions_to_clean Sample.remover Sample.world1 "yes");
    [split; reflexivity | reflexivity | discriminate].
Defined.

(** X15: a dry run of the sample command line. *)
Lemma dry_run_command_removes_nothing_witness :
  exists w2,
    cleanup_versions_command Cases.dry_args (world_lister 10 "test-token")
      find_versions_to_clean
      (fun ns pkg version_id dry_run =>
         remove_version ns pkg version_id dry_run (static_token "test-token")
           world_requests)
      (Cases.world_of Sample.one_page) = (inr tt, w2) /\
    sent w2 = sent (Cases.listed Sample.one_page) /\
    token_calls w2 = token_calls (Cases.listed Sample.one_page) /\
    clock w2 = clock (Cases.listed Sample.one_page) /\
    registry w2 = registry (Cases.listed Sample.one_page).
Proof.
  apply (dry_run_command_removes_nothing Cases.dry_args (world_lister 10 "test-token")
           find_versions_to_clean (static_token "test-token") world_requests
           (Cases.world_of Sample.one_page) (Cases.listed Sample.one_page)
           (Cases.listed Sample.one_page) Sample.versions Cases.sample_actions).
  - reflexivity.
  - left. reflexivity.
  - vm_compute. reflexivity.
  - vm_compute. reflexivity.
Defined.

(** X16: the sample command line, live, against a registry that
    accepts every DELETE. *)
Lemma live_command_deletes_what_is_marked_witness :
  exists w2,
    cleanup_versions_command Cases.live_args (world_lister 10 "test-token")
      find_versions_to_clean (world_remover "test-token")
      (Cases.world_of Sample.one_page) = (inr tt, w2) /\
    sent w2 = sent (Cases.listed Sample.one_page) ++
      map (fun v => delete_request "test-token" "user/test" "test-package" (id v))
        (to_remove Cases.sample_actions) /\
    token_calls w2 =
      (token_calls (Cases.listed Sample.one_page)
       + List.length (to_remove Cases.sample_actions))%nat /\
    clock w2 = clock (Cases.listed Sample.one_page) /\
    registry w2 = registry (Cases.listed Sample.one_page).
Proof.
  apply (live_command_deletes_what_is_marked Cases.live_args
           (world_lister 10 "test-token") find_versions_to_clean "test-token"
           (Cases.world_of Sample.one_page) (Cases.listed Sample.one_page)
           (Cases.listed Sample.one_page) Sample.versions Cases.sample_actions).
  - reflexivity.
  - left. reflexivity.
  - vm_compute. reflexivity.
  - vm_compute. reflexivity.
  - intros v Hv. destruct Hv as [<-|[<-|[<-|[]]]]; vm_compute; reflexivity.
Defined.

(** X17: the same against a registry that refuses version 3001. *)
Lemma live_command_stops_at_first_failure_witness :
  exists w2,
    cleanup_versions_command Cases.live_args (world_lister 10 "test-token")
      find_versions_to_clean (world_remover "test-token")
      (Cases.world_of Cases.flaky) = (inl (HTTPError 500), w2) /\
    sent w2 = sent (Cases.listed Cases.flaky) ++
      map (fun x => delete_request "test-token" "user/test" "test-package" (id x))
        [Sample.stale; Sample.unrelated_orphan].
Proof.
  apply (live_command_stops_at_first_failure Cases.live_args
           (world_lister 10 "test-token") find_versions_to_clean "test-token"
           (Cases.world_of Cases.flaky) (Cases.listed Cases.flaky)
           (Cases.listed Cases.flaky) Sample.versions Cases.sample_actions
           [Sample.stale] Sample.unrelated_orphan [Sample.git_commit_orphan]).
  - reflexivity.
  - left. reflexivity.
  - vm_compute. reflexivity.
  - vm_compute. reflexivity.
  - reflexivity.
  - intros x Hx. destruct Hx as [<-|[]]. vm_compute. reflexivity.
  - vm_compute. reflexivity.
Defined.

(** X18: [--all=yes-remove-all] with a pattern that does not
    compile. *)
Lemma remove_all_command_deletes_every_version_witness :
  exists w2,
    cleanup_versions_command Cases.purge_args (world_lister 10 "test-token")
      find_versions_to_clean (world_remover "test-token")
      (Cases.world_of Sample.one_page) = (inr tt, w2) /\
    sent w2 = sent (Cases.listed Sample.one_page) ++
      map (fun v => delete_request "test-token" "user/test" "test-package" (id v))
        Sample.versions /\
    token_calls w2 =
      (token_calls (Cases.listed Sample.one_page) + List.length Sample.versions)%nat.
Proof.
  apply (remove_all_command_deletes_every_version Cases.purge_args
           (world_lister 10 "test-token") "test-token"
           (Cases.world_of Sample.one_page) (Cases.listed Sample.one_page)
           Sample.versions).
  - reflexivity.
  - reflexivity.
  - vm_compute. reflexivity.
  - intros v Hv. repeat (destruct Hv as [<-|Hv]; [vm_compute; reflexivity|]).
    destruct Hv.
Defined.

(** X19 on the header of the pagination scenario. *)
Lemma next_page_is_read_from_the_next_link_witness :
  next_page_of Cases.link_to_second = Some Cases.second_page.
Proof.
  apply (next_page_is_read_from_the_next_link [] [Cases.last_link] "" Cases.second_page).
  - discriminate.
  - reflexivity.
  - reflexivity.
  - reflexivity.
  - reflexivity.
  - intros part [<-|[]]. split; vm_compute; reflexivity.
Defined.

(** X20 on the header of a last page. *)
Lemma no_next_link_no_next_page_witness :
  next_page_of (str_join "," [Cases.last_link]) = None.
Proof.
  apply (no_next_link_no_next_page [Cases.last_link]).
  - discriminate.
  - intros part [<-|[]]. split; vm_compute; reflexivity.
Defined.

(** The provider on the command-line scenario of the test suite: the
    output of [gh] is stripped of its newline. *)
Example gh_cli_token_is_stripped :
  GitHubTokenProvider.get_token None Cases.with_gh =
  (inr "test-token-from-gh-cli", Some "test-token-from-gh-cli",
   GitHubTokenProvider.mkOutside [] (GitHubTokenProvider.gh_auth_token Cases.with_gh) 1).
Proof. reflexivity. Qed.

(** A live removal that the registry refuses. *)
Example refused_removal :
  remove_version "user/test" "test-package" 1234 false (static_token "test-token")
    world_requests (Cases.world_of Cases.refusing) =
  (inl (HTTPError 404),
   mkWorld (clock (Cases.world_of Cases.refusing)) []
     [delete_request "test-token" "user/test" "test-package" 1234] 1 Cases.refusing).
Proof. vm_compute. reflexivity. Qed.
